(** * Submission statistics cache, hot-problem ranking and rescoring

    A shallow embedding of [judge/utils/problems.py] and of the two
    submission actions of [judge/admin.py] ([SubmissionAdmin.judge],
    [SubmissionAdmin.recalculate_score]), with the properties of the
    specification stated and settled against it, followed by the
    queries and views around them ([editable_problems], [judge_view],
    [has_change_permission], [rate_view], [make_private]) and further
    properties read off the code.

    Conventions.
    - Python integers are [Z].  The float columns ([points],
      [case_points], [case_total], [ac_rate]) hold the rational that the
      stored double denotes.  Python's operations on floats are the exact
      operation followed by rounding to the nearest binary64 number
      ([binary64]); the expressions that the database evaluates are exact
      rationals [Q].
    - Result codes, permission names, category codes and cache keys are
      strings, as in the source.
    - The ORM tables are lists of rows in the order the store returns
      them; a foreign key is the referenced row itself, as the ORM
      presents it ([submission.problem.points]).
    - An admin action is reached through the change list of the web
      framework, which checks [has_change_permission] and hands the
      action rows of [get_queryset] ([changelist_action]).
    - The cache backend, the event channel, the admin message list and the
      calls into [judge.models] that are not part of these two files
      ([Submission.judge], [Profile.calculate_points]) are fields of an
      explicit world state that every operation threads through.
    - The cache stores pickled Python values.  Every key prefix is written
      with one type of value only, so the backend is one table per value
      type over a single key space: [cache.delete] removes the key from
      every table.  Expiry is not modelled: an expired entry is an absent
      one; the TTL given to [cache.set] is recorded with the entry. *)

From Stdlib Require Import ZArith QArith Qround Qabs Qminmax Lqa List Bool Lia Permutation Sorted.
From stdpp Require Import gmap strings list fin_maps pretty.

Local Open Scope Z_scope.
Local Open Scope string_scope.

(** ** Data model *)

Module Model.

(** [judge.models.Problem], the columns these files read. *)
Record Problem := {
  problem_id : Z;
  problem_points : Q;
  problem_partial : bool;
  problem_ac_rate : Q;
  is_public : bool;
  is_organization_private : bool;
  problem_authors : list Z;
}.

(** [judge.models.Submission]; [result] is [None] while the submission is
    pending. *)
Record Submission := {
  sub_id : Z;
  sub_user : Z;
  sub_problem : Problem;
  sub_result : option string;
  sub_points : Q;
  case_points : Q;
  case_total : Q;
  sub_date : Z;
}.

(** [judge.models.ContestProblem] and [judge.models.ContestSubmission],
    reached through [participation.submissions]. *)
Record ContestProblem := {
  cp_problem : Problem;
  cp_points : Q;
}.

Record ContestSubmission := {
  cs_participation : Z;
  cs_submission : Submission;
  cs_problem : ContestProblem;
  cs_points : Q;
}.

(** [request.user]: the profile id and the permissions the user holds. *)
Record User := {
  user_profile : Z;
  user_perms : list string;
}.

Definition has_perm (u : User) (perm : string) : bool :=
  existsb (String.eqb perm) (user_perms u).

End Model.
Export Model.

(** ** Result taxonomy and the global result breakdown *)

Module Results.

(** [ResultType = namedtuple('ResultType', 'code name results')] *)
Record ResultType := {
  rt_code : string;
  rt_name : string;
  rt_results : list string;
}.

Definition RESULT_TYPES : list ResultType :=
  [ {| rt_code := "AC";  rt_name := "Accepted";      rt_results := ["AC"] |};
    {| rt_code := "WA";  rt_name := "Wrong";         rt_results := ["WA"] |};
    {| rt_code := "CE";  rt_name := "Compile Error"; rt_results := ["CE"] |};
    {| rt_code := "TLE"; rt_name := "Timeout";       rt_results := ["TLE"] |};
    {| rt_code := "ERR"; rt_name := "Error";
       rt_results := ["MLE"; "OLE"; "IR"; "RTE"; "AB"; "IE"] |} ].

(** [{status: rtype.code for rtype in RESULT_TYPES for status in rtype.results}]:
    a later pair overrides an earlier one with the same key. *)
Definition RESULT_TO_TYPE : gmap string string :=
  foldl (fun m rtype =>
           foldl (fun m' status => <[status := rt_code rtype]> m') m (rt_results rtype))
        ∅ RESULT_TYPES.

(** One entry of [result_data['categories']]. *)
Record Category := {
  cat_code : string;
  cat_name : string;
  cat_count : Z;
}.

(** The dictionary [{'categories': [...], 'total': n}]. *)
Record ResultData := {
  categories : list Category;
  total : Z;
}.

Definition result_is (r : option string) (s : Submission) : bool :=
  bool_decide (sub_result s = r).

Fixpoint distinct_results (rs : list (option string)) : list (option string) :=
  match rs with
  | [] => []
  | r :: rest =>
      if bool_decide (r ∈ rest) then distinct_results rest
      else r :: distinct_results rest
  end.

(** [submissions.values('result').annotate(count=Count('result'))
      .values_list('result', 'count')]: one row per distinct result;
    [Count('result')] counts the non-null values of the group, so the
    group of pending submissions has count 0. *)
Definition result_counts (submissions : list Submission) : list (option string * Z) :=
  map (fun r =>
         (r, match r with
             | None => 0
             | Some _ => Z.of_nat (length (filter (fun s => result_is r s = true) submissions))
             end))
      (distinct_results (map sub_result submissions)).

(** [defaultdict(int, raw)] and its reads [results[status]]. *)
Definition results_dict (raw : list (option string * Z)) : gmap (option string) Z :=
  foldl (fun m kv => <[kv.1 := kv.2]> m) ∅ raw.

Definition dict_get (results : gmap (option string) Z) (status : string) : Z :=
  default 0 (results !! Some status).

Definition sum_Z (l : list Z) : Z := foldr Z.add 0 l.

Inductive Exception :=
| ValueError (msg : string).

(** A keyword filter passed to [Submission.objects.filter]: its keyword
    and the predicate it stands for. *)
Definition Filter : Type := string * (Submission → bool).

Definition apply_filters (kwargs : list Filter) (submissions : list Submission)
  : list Submission :=
  filter (fun s => forallb (fun f => f.2 s) kwargs = true) submissions.

Definition breakdown (submissions : list Submission) : ResultData :=
  let results := results_dict (result_counts submissions) in
  {| categories :=
       map (fun rtype =>
              {| cat_code := rt_code rtype;
                 cat_name := rt_name rtype;
                 cat_count := sum_Z (map (dict_get results) (rt_results rtype)) |})
           RESULT_TYPES;
     total := sum_Z (map snd (map_to_list results)) |}.

(** [get_result_data]: [objects] is the submission table, [args] the
    positional arguments (querysets), [kwargs] the keyword filters. *)
Definition get_result_data (objects : list Submission)
    (args : list (list Submission)) (kwargs : list Filter)
  : Exception + ResultData :=
  match args with
  | submissions :: _ =>
      match kwargs with
      | _ :: _ => inl (ValueError "Can't pass both queryset and keyword filters")
      | [] => inr (breakdown submissions)
      end
  | [] => inr (breakdown (apply_filters kwargs objects))
  end.

End Results.
Export Results.

(** ** Cache backend and world state *)

Module State.

(** A problem row of the hot-problem query with its annotations;
    [hr_ordering] is [None] when the database evaluates the ordering
    expression to NULL. *)
Record HotRow := {
  hr_problem : Problem;
  unique_user_count : Z;
  submission_volume : Z;
  ac_volume : Z;
  hr_ordering : option Q;
}.

(** One value of [user_attempted_ids]:
    [{'achieved_points': points, 'max_points': max_points}]. *)
Record Attempt := {
  achieved_points : Q;
  max_points : Q;
}.

Record Cache := {
  id_sets : gmap string (gset Z * Z);
  attempt_maps : gmap string (gmap Z Attempt * Z);
  result_datas : gmap string (ResultData * Z);
  rankings : gmap string (list HotRow * Z);
}.

Definition cache_empty : Cache :=
  {| id_sets := ∅; attempt_maps := ∅; result_datas := ∅; rankings := ∅ |}.

Definition cache_delete (key : string) (c : Cache) : Cache :=
  {| id_sets := delete key (id_sets c);
     attempt_maps := delete key (attempt_maps c);
     result_datas := delete key (result_datas c);
     rankings := delete key (rankings c) |}.

Definition cache_set_ids (key : string) (v : gset Z) (ttl : Z) (c : Cache) : Cache :=
  {| id_sets := <[key := (v, ttl)]> (id_sets c);
     attempt_maps := delete key (attempt_maps c);
     result_datas := delete key (result_datas c);
     rankings := delete key (rankings c) |}.

Definition cache_set_attempts (key : string) (v : gmap Z Attempt) (ttl : Z) (c : Cache)
  : Cache :=
  {| id_sets := delete key (id_sets c);
     attempt_maps := <[key := (v, ttl)]> (attempt_maps c);
     result_datas := delete key (result_datas c);
     rankings := delete key (rankings c) |}.

Definition cache_set_result_data (key : string) (v : ResultData) (ttl : Z) (c : Cache)
  : Cache :=
  {| id_sets := delete key (id_sets c);
     attempt_maps := delete key (attempt_maps c);
     result_datas := <[key := (v, ttl)]> (result_datas c);
     rankings := delete key (rankings c) |}.

Definition cache_set_ranking (key : string) (v : list HotRow) (ttl : Z) (c : Cache)
  : Cache :=
  {| id_sets := delete key (id_sets c);
     attempt_maps := delete key (attempt_maps c);
     result_datas := delete key (result_datas c);
     rankings := <[key := (v, ttl)]> (rankings c) |}.

(** [event.post(channel, message)] with the message of
    [add_to_result_data]. *)
Record Event := {
  ev_channel : string;
  ev_type : string;
  ev_result_type : string;
  ev_delta : Z;
}.

Inductive Level := INFO | ERROR.

(** [django.conf.settings], the one value read here. *)
Record Settings := {
  GLOBAL_SUBMISSION_STAT_UPDATE_INTERVAL : Z;
}.

Record World := {
  settings : Settings;
  now : Z;                                  (* timezone.now(), in seconds *)
  db_exp : Q → Q;                           (* the database's e ** x *)
  judge_accepts : Z → bool;                 (* result of Submission.judge() *)
  problems : list Problem;                  (* Problem.objects *)
  submissions : list Submission;            (* Submission.objects *)
  contest_submissions : list ContestSubmission;
  cache : Cache;
  events : list Event;                      (* posted events, oldest first *)
  messages : list (Level * string);         (* message_user, oldest first *)
  judged : list Z;                          (* Submission.judge() calls *)
  recalculated : list Z;                    (* Profile.calculate_points() calls *)
}.

Definition set_cache (c : Cache) (w : World) : World :=
  {| settings := settings w; now := now w; db_exp := db_exp w;
     judge_accepts := judge_accepts w; problems := problems w;
     submissions := submissions w; contest_submissions := contest_submissions w;
     cache := c; events := events w; messages := messages w;
     judged := judged w; recalculated := recalculated w |}.

Definition set_submissions (l : list Submission) (w : World) : World :=
  {| settings := settings w; now := now w; db_exp := db_exp w;
     judge_accepts := judge_accepts w; problems := problems w;
     submissions := l; contest_submissions := contest_submissions w;
     cache := cache w; events := events w; messages := messages w;
     judged := judged w; recalculated := recalculated w |}.

Definition post (ev : Event) (w : World) : World :=
  {| settings := settings w; now := now w; db_exp := db_exp w;
     judge_accepts := judge_accepts w; problems := problems w;
     submissions := submissions w; contest_submissions := contest_submissions w;
     cache := cache w; events := events w ++ [ev]; messages := messages w;
     judged := judged w; recalculated := recalculated w |}.

Definition message_user (level : Level) (msg : string) (w : World) : World :=
  {| settings := settings w; now := now w; db_exp := db_exp w;
     judge_accepts := judge_accepts w; problems := problems w;
     submissions := submissions w; contest_submissions := contest_submissions w;
     cache := cache w; events := events w; messages := messages w ++ [(level, msg)];
     judged := judged w; recalculated := recalculated w |}.

(** Modelled from the spec: [Submission.judge()] of [judge.models], which
    is not among the source files.  The specification has a scheduled
    submission judged out of core and the rejudge report the count
    scheduled: the call is recorded in [judged], and [judge_accepts]
    tells what it returns. *)
Definition log_judged (id : Z) (w : World) : World :=
  {| settings := settings w; now := now w; db_exp := db_exp w;
     judge_accepts := judge_accepts w; problems := problems w;
     submissions := submissions w; contest_submissions := contest_submissions w;
     cache := cache w; events := events w; messages := messages w;
     judged := judged w ++ [id]; recalculated := recalculated w |}.

(** Modelled from the spec: [Profile.calculate_points()] of
    [judge.models], which is not among the source files and of which the
    specification says no more than that the rescoring path writes
    derived point values back: the call is recorded in [recalculated]. *)
Definition calculate_points (profile : Z) (w : World) : World :=
  {| settings := settings w; now := now w; db_exp := db_exp w;
     judge_accepts := judge_accepts w; problems := problems w;
     submissions := submissions w; contest_submissions := contest_submissions w;
     cache := cache w; events := events w; messages := messages w;
     judged := judged w; recalculated := recalculated w ++ [profile] |}.

End State.
Export State.

(** ** Incremental update of the global breakdown *)

Module Aggregator.

Definition cache_key : string := "global_submission_result_data".

(** The loop over [result_data['categories']]: the first category whose
    code matches gets [delta] added and the loop breaks; the flag tells
    whether a category matched (only then is the total changed). *)
Fixpoint bump (code : string) (delta : Z) (cats : list Category)
  : list Category * bool :=
  match cats with
  | [] => ([], false)
  | category :: rest =>
      if String.eqb (cat_code category) code then
        ({| cat_code := cat_code category;
            cat_name := cat_name category;
            cat_count := cat_count category + delta |} :: rest, true)
      else
        let '(rest', found) := bump code delta rest in
        (category :: rest', found)
  end.

Definition bump_data (code : string) (delta : Z) (d : ResultData) : ResultData :=
  let '(cats, found) := bump code delta (categories d) in
  {| categories := cats;
     total := if found then total d + delta else total d |}.

(** [add_to_result_data(result, delta)] *)
Definition add_to_result_data (result : option string) (delta : Z) (w : World) : World :=
  match result with
  | None => w
  | Some r =>
      match RESULT_TO_TYPE !! r with
      | None => w
      | Some code =>
          match result_datas (cache w) !! cache_key with
          | None => w
          | Some (result_data, _) =>
              let result_data := bump_data code delta result_data in
              let w := set_cache
                         (cache_set_result_data cache_key result_data
                            (GLOBAL_SUBMISSION_STAT_UPDATE_INTERVAL (settings w))
                            (cache w)) w in
              post {| ev_channel := "submissions";
                      ev_type := "change-global-stats";
                      ev_result_type := code;
                      ev_delta := delta |} w
          end
      end
  end.

(** Count recorded in a breakdown for a category code (first match). *)
Fixpoint count_of (code : string) (cats : list Category) : option Z :=
  match cats with
  | [] => None
  | c :: rest => if String.eqb (cat_code c) code then Some (cat_count c)
                 else count_of code rest
  end.

(** The shape [get_result_data] gives a breakdown: one category per
    entry of [RESULT_TYPES], in that order. *)
Definition materialized (d : ResultData) : Prop :=
  map cat_code (categories d) = map rt_code RESULT_TYPES.

Definition nonnegative (d : ResultData) : Prop :=
  Forall (fun c => 0 <= cat_count c) (categories d) ∧ 0 <= total d.

End Aggregator.
Export Aggregator.

(** ** Memoized completed and attempted sets *)

Module IdSets.

(** [.distinct()] on a flat list of ids: the first occurrence is kept. *)
Fixpoint distinct (l : list Z) : list Z :=
  match l with
  | [] => []
  | x :: rest => x :: filter (fun y => y ≠ x) (distinct rest)
  end.

(** [Submission.objects.filter(user=profile, result='AC',
      points=F('problem__points')).values_list('problem_id', flat=True).distinct()] *)
Definition user_completed_query (profile : Z) (w : World) : list Z :=
  distinct
    (map (fun s => problem_id (sub_problem s))
       (filter (fun s => Z.eqb (sub_user s) profile
                         && bool_decide (sub_result s = Some "AC")
                         && Qeq_bool (sub_points s) (problem_points (sub_problem s)) = true)
               (submissions w))).

(** [participation.submissions.filter(submission__result='AC',
      points=F('problem__points'))
      .values_list('problem__problem__id', flat=True).distinct()] *)
Definition contest_completed_query (participation : Z) (w : World) : list Z :=
  distinct
    (map (fun cs => problem_id (cp_problem (cs_problem cs)))
       (filter (fun cs => Z.eqb (cs_participation cs) participation
                          && bool_decide (sub_result (cs_submission cs) = Some "AC")
                          && Qeq_bool (cs_points cs) (cp_points (cs_problem cs)) = true)
               (contest_submissions w))).

Definition user_complete_key (profile : Z) : string :=
  "user_complete:" +:+ pretty profile.

Definition contest_complete_key (participation : Z) : string :=
  "contest_complete:" +:+ pretty participation.

Definition user_attempted_key (profile : Z) : string :=
  "user_attempted:" +:+ pretty profile.

Definition contest_attempted_key (participation : Z) : string :=
  "contest_attempted:" +:+ pretty participation.

(** [user_completed_ids(profile)] *)
Definition user_completed_ids (profile : Z) (w : World) : gset Z * World :=
  let key := user_complete_key profile in
  match id_sets (cache w) !! key with
  | Some (result, _) => (result, w)
  | None =>
      let result : gset Z := list_to_set (user_completed_query profile w) in
      (result, set_cache (cache_set_ids key result 86400 (cache w)) w)
  end.

(** [contest_completed_ids(participation)] *)
Definition contest_completed_ids (participation : Z) (w : World) : gset Z * World :=
  let key := contest_complete_key participation in
  match id_sets (cache w) !! key with
  | Some (result, _) => (result, w)
  | None =>
      let result : gset Z := list_to_set (contest_completed_query participation w) in
      (result, set_cache (cache_set_ids key result 86400 (cache w)) w)
  end.

Definition Qmax_list (l : list Q) : Q :=
  match l with
  | [] => 0%Q
  | x :: rest => foldl Qmax x rest
  end.

(** [Submission.objects.filter(user=profile)
      .values_list('problem__id', 'problem__points')
      .annotate(points=Max('points')).filter(points__lt=F('problem__points'))]:
    one group per problem, the best points of the group, groups whose
    best is below the problem's points; the dictionary comprehension
    then maps the problem id to the pair. *)
Definition user_attempted_query (profile : Z) (w : World) : list (Z * Attempt) :=
  let mine := filter (fun s => Z.eqb (sub_user s) profile = true) (submissions w) in
  let groups := distinct (map (fun s => problem_id (sub_problem s)) mine) in
  omap (fun id =>
          let rows := filter (fun s => Z.eqb (problem_id (sub_problem s)) id = true) mine in
          match rows with
          | [] => None
          | first :: _ =>
              let best := Qmax_list (map sub_points rows) in
              let max_points := problem_points (sub_problem first) in
              if Qle_bool max_points best then None
              else Some (id, {| achieved_points := best; max_points := max_points |})
          end)
       groups.

(** [user_attempted_ids(profile)] *)
Definition user_attempted_ids (profile : Z) (w : World) : gmap Z Attempt * World :=
  let key := user_attempted_key profile in
  match attempt_maps (cache w) !! key with
  | Some (result, _) => (result, w)
  | None =>
      let result : gmap Z Attempt :=
        foldl (fun m kv => <[kv.1 := kv.2]> m) ∅ (user_attempted_query profile w) in
      (result, set_cache (cache_set_attempts key result 86400 (cache w)) w)
  end.

End IdSets.
Export IdSets.

(** ** Hot-problem ranking *)

Module Ranking.

Section Sort.
Context {A : Type} (leb : A → A → bool).

Fixpoint insert_by (x : A) (l : list A) : list A :=
  match l with
  | [] => [x]
  | y :: rest => if leb x y then x :: l else y :: insert_by x rest
  end.

(** [order_by]: rows that compare equal keep the order in which the
    store returns them. *)
Definition sort_by (l : list A) : list A := foldr insert_by [] l.
End Sort.

(** SQL arithmetic on nullable numbers: a NULL operand gives NULL, and so
    does a division by zero (MySQL and SQLite; PostgreSQL aborts the
    query with an error instead, which [None] stands for as well). *)
Definition sql_add (a b : option Q) : option Q :=
  match a, b with Some x, Some y => Some (x + y)%Q | _, _ => None end.

Definition sql_mul (a b : option Q) : option Q :=
  match a, b with Some x, Some y => Some (x * y)%Q | _, _ => None end.

Definition sql_div (a b : option Q) : option Q :=
  match a, b with
  | Some x, Some y => if Qeq_bool y 0 then None else Some (x / y)%Q
  | _, _ => None
  end.

Definition sql_pow_e (exp : Q → Q) (a : option Q) : option Q :=
  match a with Some x => Some (exp x) | None => None end.

(** Descending order on a nullable key, NULL after every number. *)
Definition desc_nullable (a b : option Q) : bool :=
  match a, b with
  | _, None => true
  | None, Some _ => false
  | Some x, Some y => Qle_bool y x
  end.

Definition of_int (n : Z) : option Q := Some (inject_Z n).

(** The rows of [Problem.submission] that the filter
    [submission__date__gt=timezone.now() - duration] joins to [p]; the
    annotations aggregate over the same join. *)
Definition windowed (duration : Z) (w : World) (p : Problem) : list Submission :=
  filter (fun s => Z.eqb (problem_id (sub_problem s)) (problem_id p)
                   && (now w - duration <? sub_date s)%Z = true)
         (submissions w).

(** [Problem.objects.filter(is_public=True, is_organization_private=False,
      submission__date__gt=..., points__gt=3, points__lt=25)], one row
    per problem once the annotations group it. *)
Definition candidates (duration : Z) (w : World) : list Problem :=
  filter (fun p => is_public p
                   && negb (is_organization_private p)
                   && negb (Qle_bool (problem_points p) 3)
                   && negb (Qle_bool 25 (problem_points p))
                   && negb (bool_decide (windowed duration w p = [])) = true)
         (problems w).

(** [Count('submission__user', distinct=True)] *)
Definition count_users (subs : list Submission) : Z :=
  Z.of_nat (length (distinct (map sub_user subs))).

(** [Count(Case(When(submission__result=r, then=1), ...))] for the
    results [rs]. *)
Definition count_results (rs : list string) (subs : list Submission) : Z :=
  Z.of_nat (length (filter (fun s => match sub_result s with
                                     | Some r => bool_decide (r ∈ rs)
                                     | None => false
                                     end = true) subs)).

(** The ordering expression
    [0.5 * F('points') * (0.4 * F('ac_volume') / F('submission_volume')
       + 0.6 * F('ac_rate')) + 100 * e ** (F('unique_user_count') / mx)]. *)
Definition ordering (exp : Q → Q) (mx : Q) (p : Problem) (k sv ac : Z) : option Q :=
  sql_add
    (sql_mul (sql_mul (Some 0.5%Q) (Some (problem_points p)))
             (sql_add (sql_div (sql_mul (Some 0.4%Q) (of_int ac)) (of_int sv))
                      (sql_mul (Some 0.6%Q) (Some (problem_ac_rate p)))))
    (sql_mul (Some 100%Q) (sql_pow_e exp (sql_div (of_int k) (Some mx)))).

Definition annotate (duration : Z) (w : World) (mx : Q) (p : Problem) : HotRow :=
  let subs := windowed duration w p in
  let k := count_users subs in
  let sv := count_results ["AC"; "WA"; "IR"; "RTE"; "TLE"; "OLE"] subs in
  let ac := count_results ["AC"] subs in
  {| hr_problem := p;
     unique_user_count := k;
     submission_volume := sv;
     ac_volume := ac;
     hr_ordering := ordering (db_exp w) mx p k sv ac |}.

(** [unique_user_count__gt=max(mx / 3.0, 1)] *)
Definition popular (mx : Q) (row : HotRow) : bool :=
  negb (Qle_bool (inject_Z (unique_user_count row)) (Qmax (mx / 3) 1)).

Definition hot_problems_key (duration : Z) (limit : nat) : string :=
  "hot_problems:" +:+ pretty duration +:+ ":" +:+ pretty limit.

(** The query of the cache-miss branch, given [mx]. *)
Definition ranking (duration : Z) (limit : nat) (mx : Q) (w : World) : list HotRow :=
  let qs := map (annotate duration w mx) (candidates duration w) in
  let qs := filter (fun row => popular mx row = true) qs in
  let qs := sort_by (fun a b => desc_nullable (hr_ordering a) (hr_ordering b)) qs in
  take limit qs.

(** [qs0]: [qs.annotate(k=Count('submission__user', distinct=True))
      .order_by('-k').values_list('k', flat=True)] *)
Definition user_counts (duration : Z) (w : World) : list Z :=
  sort_by (fun a b => (b <=? a)%Z)
    (map (fun p => count_users (windowed duration w p)) (candidates duration w)).

(** [hot_problems(duration, limit)]; [duration] in seconds. *)
Definition hot_problems (duration : Z) (limit : nat) (w : World) : list HotRow * World :=
  let cache_key := hot_problems_key duration limit in
  match rankings (cache w) !! cache_key with
  | Some (qs, _) => (qs, w)
  | None =>
      let qs0 := user_counts duration w in
      match qs0 with
      | [] => ([], w)
      | k0 :: _ =>
          let mx := inject_Z k0 in
          let qs := ranking duration limit mx w in
          (qs, set_cache (cache_set_ranking cache_key qs 900 (cache w)) w)
      end
  end.

End Ranking.
Export Ranking.

(** ** Rejudge and rescore actions of the submission admin *)

Module Admin.

(** Python floats are IEEE binary64 numbers.  A finite double is the
    rational it denotes, and an operation on floats is the exact operation
    followed by rounding to the nearest double, a tie to the even
    significand.  Infinities and NaN are outside the model: a result
    beyond the largest finite double is rounded as if the exponent had no
    upper bound; below [2 ^ -1022] the spacing is that of the
    subnormals. *)
Definition Zround_half_even (q : Q) : Z :=
  let f := Qfloor q in
  match Qcompare (q - inject_Z f) (1 # 2) with
  | Lt => f
  | Gt => (f + 1)%Z
  | Eq => if Z.even f then f else (f + 1)%Z
  end.

Definition Qpow2 (e : Z) : Q :=
  if (0 <=? e)%Z then inject_Z (2 ^ e) else 1 # Z.to_pos (2 ^ (- e)).

(** The [e] with [2 ^ e <= a < 2 ^ (e + 1)], for positive [a]. *)
Definition binade (a : Q) : Z :=
  let e0 := (Z.log2 (Qnum a) - Z.log2 (Zpos (Qden a)))%Z in
  if Qle_bool (Qpow2 e0) a then e0 else (e0 - 1)%Z.

Definition binary64 (q : Q) : Q :=
  if Qeq_bool q 0 then 0%Q
  else
    let a := Qabs q in
    let e := Z.max (binade a) (-1022) in
    let ulp := Qpow2 (e - 52) in
    let r := (inject_Z (Zround_half_even (a / ulp)) * ulp)%Q in
    Qred (if Qle_bool 0 q then r else - r).

(** [a / b] and [a * b] on floats. *)
Definition float_div (a b : Q) : Q := binary64 (a / b).
Definition float_mul (a b : Q) : Q := binary64 (a * b).

(** The nearest integer, a half away from zero. *)
Definition Zround_half_away (q : Q) : Z :=
  if Qle_bool 0 q then Qfloor (q + (1 # 2)) else (- Qfloor (- q + (1 # 2)))%Z.

(** [round(x, ndigits)] of Python 2 for [ndigits >= 0]: the exact value of
    the float is rounded to [ndigits] decimal places, an exact half away
    from zero, and the decimal is converted back to the nearest float.
    (The module is Python 2 code of the Django 1.9 era: it imports
    [patterns] from [django.conf.urls] and writes its float divisions as
    [memory / 1024.].  Python 3 differs on the exact halves only, which it
    rounds to the even digit.) *)
Definition py_round (x : Q) (ndigits : nat) : Q :=
  let scale := inject_Z (10 ^ Z.of_nat ndigits) in
  binary64 (inject_Z (Zround_half_away (x * scale)) / scale).

Definition Qltb (x y : Q) : bool := negb (Qle_bool y x).

(** ['s'[n == 1:]] *)
Definition plural (n : Z) : string := if (n =? 1)%Z then "" else "s".

Definition authored_by (profile : Z) (s : Submission) : bool :=
  bool_decide (profile ∈ problem_authors (sub_problem s)).

(** Modelled from the spec: the statement [successful += model.judge()],
    whose callee [Submission.judge()] is not among the source files; its
    call is [log_judged] and its result [judge_accepts]. *)
Definition judge_one (acc : Z * World) (model : Submission) : Z * World :=
  let '(successful, w) := acc in
  let w := log_judged (sub_id model) w in
  ((successful + (if judge_accepts w (sub_id model) then 1 else 0))%Z, w).

(** The rows of a queryset given by primary keys.  Which keys the admin
    hands an action is [changelist_selection] below. *)
Definition select (selected : list Z) (w : World) : list Submission :=
  filter (fun s => sub_id s ∈ selected) (submissions w).

(** [SubmissionAdmin.judge(request, queryset)] *)
Definition judge (user : User) (selected : list Z) (w : World) : World :=
  if negb (has_perm user "judge.rejudge_submission")
     || negb (has_perm user "judge.edit_own_problem") then
    message_user ERROR "You do not have the permission to rejudge submissions." w
  else
    let queryset := sort_by (fun a b => (sub_id a <=? sub_id b)%Z) (select selected w) in
    if (10 <? Z.of_nat (length queryset))%Z
       && negb (has_perm user "judge.rejudge_submission_lot") then
      message_user ERROR "You do not have the permission to rejudge THAT many submissions." w
    else
      let queryset :=
        if negb (has_perm user "judge.edit_all_problem")
        then filter (fun s => authored_by (user_profile user) s = true) queryset
        else queryset in
      let '(successful, w) := foldl judge_one (0%Z, w) queryset in
      message_user INFO
        (pretty successful +:+ " submission" +:+ plural successful
           +:+ " were successfully scheduled for rejudging.") w.

(** The two assignments to [submission.points]. *)
Definition rescored_points (submission : Submission) : Q :=
  let points :=
    py_round (if negb (Qeq_bool (case_total submission) 0)
              then float_mul (float_div (case_points submission)
                                        (case_total submission))
                             (problem_points (sub_problem submission))
              else 0%Q) 1 in
  if negb (problem_partial (sub_problem submission))
     && Qltb points (problem_points (sub_problem submission))
  then 0%Q else points.

(** [submission.save()] of an object loaded with
    [only('points', 'case_points', 'case_total', ...)]: the loaded columns
    of the row with that primary key are written. *)
Definition write_row (submission row : Submission) : Submission :=
  if Z.eqb (sub_id row) (sub_id submission) then
    {| sub_id := sub_id row; sub_user := sub_user row;
       sub_problem := sub_problem row; sub_result := sub_result row;
       sub_points := sub_points submission;
       case_points := case_points submission;
       case_total := case_total submission;
       sub_date := sub_date row |}
  else row.

Definition save (submission : Submission) (w : World) : World :=
  set_submissions (map (write_row submission) (submissions w)) w.

Definition rescore_one (w : World) (submission : Submission) : World :=
  save {| sub_id := sub_id submission; sub_user := sub_user submission;
          sub_problem := sub_problem submission; sub_result := sub_result submission;
          sub_points := rescored_points submission;
          case_points := case_points submission;
          case_total := case_total submission;
          sub_date := sub_date submission |} w.

(** The body of the loop over the owners of the batch. *)
Definition refresh_profile (w : World) (profile : Z) : World :=
  let w := calculate_points profile w in
  set_cache (cache_delete (user_complete_key profile) (cache w)) w.

(** [SubmissionAdmin.recalculate_score(request, queryset)] *)
Definition recalculate_score (user : User) (selected : list Z) (w : World) : World :=
  if negb (has_perm user "judge.rejudge_submission") then
    message_user ERROR "You do not have the permission to rejudge submissions." w
  else
    let submissions := select selected w in
    let w := foldl rescore_one w submissions in
    let owners := distinct (map sub_user (select selected w)) in
    let w := foldl refresh_profile w owners in
    let n := Z.of_nat (length submissions) in
    message_user INFO
      (pretty n +:+ " submission" +:+ plural n +:+ " were successfully rescored.") w.

End Admin.
Export Admin.

(** ** Further operations of the two files *)

Module Catalog.

(** [user_authored_ids(profile)] *)
Definition user_authored_ids (profile : Z) (w : World) : gset Z :=
  list_to_set
    (map problem_id (filter (fun p => profile ∈ problem_authors p) (problems w))).

(** The rows a LEFT OUTER JOIN over a many-to-many relation gives one
    problem: one per related profile, or one with NULL when there is
    none. *)
Definition outer_join (related : list Z) : list (option Z) :=
  match related with
  | [] => [None]
  | _ => map Some related
  end.

Section Curators.
(** [Problem.curators], the profiles that curate a problem; the relation
    lives in a table of its own. *)
Variable curators : Problem → list Z.

(** [user_editable_ids(profile)]: the union of the two querysets, as a
    set of ids. *)
Definition user_editable_ids (profile : Z) (w : World) : gset Z :=
  list_to_set
    (map problem_id
       (filter (fun p => profile ∈ problem_authors p ∨ profile ∈ curators p)
               (problems w))).

(** [editable_problems(user, profile=None)].  The disjunction of lookups
    across the two relations is one filter over the outer joins, so a
    problem can come out more than once. *)
Definition editable_problems (user : User) (profile : option Z) (w : World)
  : list Problem :=
  let subquery := problems w in
  let profile := default (user_profile user) profile in
  if negb (has_perm user "judge.edit_all_problem") then
    p ← subquery;
    a ← outer_join (problem_authors p);
    c ← outer_join (curators p);
    if bool_decide (a = Some profile) || bool_decide (c = Some profile)
       || (has_perm user "judge.edit_public_problem" && is_public p)
    then [p] else []
  else subquery.
End Curators.

End Catalog.
Export Catalog.

Module Console.

(** [SubmissionAdmin.get_queryset(request)] *)
Definition get_queryset (user : User) (w : World) : list Submission :=
  if has_perm user "judge.edit_all_problem" then submissions w
  else filter (fun s => authored_by (user_profile user) s = true) (submissions w).

(** [SubmissionAdmin.has_change_permission(request, obj=None)] *)
Definition has_change_permission (user : User) (obj : option Submission) : bool :=
  if negb (has_perm user "judge.edit_own_problem") then false
  else
    match obj with
    | None => true
    | Some submission =>
        if has_perm user "judge.edit_all_problem" then true
        else authored_by (user_profile user) submission
    end.

(** The exceptions the two views raise; [AttributeError] is what calling
    [.exists()] on the boolean that [.exists()] returned raises. *)
Inductive Raised := PermissionDenied | Http404 | AttributeError.

(** [SubmissionAdmin.judge_view(request, id)]: the world after the
    redirect, or the exception.  [Submission.objects.get(id=id)] looks
    the primary key up. *)
Definition judge_view (user : User) (id : Z) (w : World) : Raised + World :=
  if negb (has_perm user "judge.rejudge_submission")
     || negb (has_perm user "judge.edit_own_problem") then inl PermissionDenied
  else
    match filter (fun s => sub_id s = id) (submissions w) with
    | [] => inl Http404
    | submission :: _ =>
        if negb (has_perm user "judge.edit_all_problem")
           && negb (authored_by (user_profile user) submission)
        then inl PermissionDenied
        else inr (log_judged (sub_id submission) w)
    end.

(** [judge.models.Contest], the columns [rate_view] reads. *)
Record Contest := {
  contest_id : Z;
  contest_is_rated : bool;
  contest_organizers : list Z;
}.

(** [ContestAdmin.rate_view(request, id)]: the id of the contest handed
    to [rate_contest], or the exception.  The last test is
    [not has_perm('judge.edit_all_contest') and
     not contest.organizers.filter(...).exists().exists()]:
    its right operand, when evaluated, raises. *)
Definition rate_view (user : User) (id : Z) (contests : list Contest) : Raised + Z :=
  if negb (has_perm user "judge.edit_all_contest")
     || negb (has_perm user "judge.edit_own_contest") then inl PermissionDenied
  else
    match filter (fun c => contest_id c = id) contests with
    | [] => inl Http404
    | contest :: _ =>
        if negb (contest_is_rated contest) then inl PermissionDenied
        else if negb (has_perm user "judge.edit_all_contest")
        then inl AttributeError
        else inr (contest_id contest)
    end.

Definition set_problems (l : list Problem) (w : World) : World :=
  {| settings := settings w; now := now w; db_exp := db_exp w;
     judge_accepts := judge_accepts w; problems := l;
     submissions := submissions w; contest_submissions := contest_submissions w;
     cache := cache w; events := events w; messages := messages w;
     judged := judged w; recalculated := recalculated w |}.

Definition with_is_public (value : bool) (p : Problem) : Problem :=
  {| problem_id := problem_id p; problem_points := problem_points p;
     problem_partial := problem_partial p; problem_ac_rate := problem_ac_rate p;
     is_public := value; is_organization_private := is_organization_private p;
     problem_authors := problem_authors p |}.

(** [queryset.update(is_public=value)] on the problems whose primary key
    is selected: the new table and the number of rows matched. *)
Definition update_is_public (value : bool) (selected : list Z) (w : World) : Z * World :=
  (Z.of_nat (length (filter (fun p => problem_id p ∈ selected) (problems w))),
   set_problems
     (map (fun p => if bool_decide (problem_id p ∈ selected)
                    then with_is_public value p else p) (problems w)) w).

(** [ProblemAdmin.make_public(request, queryset)] *)
Definition make_public (selected : list Z) (w : World) : World :=
  let '(count, w) := update_is_public true selected w in
  message_user INFO
    (pretty count +:+ " problem" +:+ plural count
       +:+ " successfully marked as public.") w.

(** [ProblemAdmin.make_private(request, queryset)] *)
Definition make_private (selected : list Z) (w : World) : World :=
  let '(count, w) := update_is_public false selected w in
  message_user INFO
    (pretty count +:+ " problem" +:+ plural count
       +:+ " successfully marked as private.") w.

End Console.
Export Console.

Module Dispatch.

(** Modelled from the spec: the admin console's dispatch of a
    permission-gated bulk action, which is the web framework's
    ([ModelAdmin.changelist_view] and [response_action]) and not among
    the source files.  The change list answers [PermissionDenied] unless
    [has_change_permission(request, None)] holds, and it hands the action
    the rows of [get_queryset(request)] whose primary key is selected. *)
Definition changelist_selection (user : User) (selected : list Z) (w : World) : list Z :=
  map sub_id (filter (fun s => sub_id s ∈ selected) (get_queryset user w)).

Definition changelist_action (action : User → list Z → World → World)
    (user : User) (selected : list Z) (w : World) : Raised + World :=
  if has_change_permission user None
  then inr (action user (changelist_selection user selected w) w)
  else inl PermissionDenied.

(** An operation that reported an error and did nothing else: the
    request was denied, or the world is the one before with one error
    message more. *)
Definition refused (w : World) (outcome : Raised + World) : Prop :=
  outcome = inl PermissionDenied ∨ ∃ msg, outcome = inr (message_user ERROR msg w).

End Dispatch.
Export Dispatch.

Module Measures.

(** Number of submissions with a result. *)
Definition count_judged (subs : list Submission) : Z :=
  Z.of_nat (length (filter (fun s => is_Some (sub_result s)) subs)).

(** The count [result_counts] gives the group of [r]. *)
Definition occurrences (r : option string) (subs : list Submission) : Z :=
  match r with
  | None => 0
  | Some _ => Z.of_nat (length (filter (fun s => result_is r s = true) subs))
  end.

(** 1 if the condition holds, else 0. *)
Definition indicator (b : bool) : Z := if b then 1 else 0.

(** A breakdown written with the counts themselves. *)
Definition counted (subs : list Submission) : ResultData :=
  {| categories :=
       map (fun rtype =>
              {| cat_code := rt_code rtype;
                 cat_name := rt_name rtype;
                 cat_count := count_results (rt_results rtype) subs |})
           RESULT_TYPES;
     total := count_judged subs |}.

(** What a rescore is to make of a row of the batch. *)
Definition rescored_row (selected : list Z) (row : Submission) : Submission :=
  if bool_decide (sub_id row ∈ selected) then
    {| sub_id := sub_id row; sub_user := sub_user row;
       sub_problem := sub_problem row; sub_result := sub_result row;
       sub_points := rescored_points row;
       case_points := case_points row; case_total := case_total row;
       sub_date := sub_date row |}
  else row.

(** The submissions of a profile to the problem with a given id. *)
Definition attempts_on (profile id : Z) (w : World) : list Submission :=
  filter (fun s => Z.eqb (problem_id (sub_problem s)) id = true)
    (filter (fun s => Z.eqb (sub_user s) profile = true) (submissions w)).

(** Rows of one problem carry one problem: the foreign key of a
    submission refers to a single row of the problem table. *)
Definition problems_consistent (w : World) : Prop :=
  ∀ s1 s2, s1 ∈ submissions w → s2 ∈ submissions w →
           problem_id (sub_problem s1) = problem_id (sub_problem s2) →
           sub_problem s1 = sub_problem s2.

End Measures.
Export Measures.

(** ** Reference definitions and sample data *)

Module Reference.

(** What [add_to_result_data] is to do to one category. *)
Definition add_to_category (code : string) (delta : Z) (c : Category) : Category :=
  if String.eqb (cat_code c) code then
    {| cat_code := cat_code c; cat_name := cat_name c; cat_count := cat_count c + delta |}
  else c.

(** [r] is [x] rounded to one decimal place: the float nearest to
    [n / 10], where [n] is an integer nearest to [10 x].  (When [10 x] is
    halfway between two integers, which of them [round] takes is the
    business of [py_round].) *)
Definition rounded_to_tenth (x r : Q) : Prop :=
  ∃ n : Z,
    r = binary64 (inject_Z n / 10)
    ∧ (- (1 # 2) <= x * 10 - inject_Z n <= 1 # 2)%Q.

(** The key by which [hot_problems] orders its rows. *)
Definition by_ordering (a b : HotRow) : Prop :=
  desc_nullable (hr_ordering a) (hr_ordering b) = true.

(** The candidates that pass the popularity floor, annotated, in the
    order of the problem table. *)
Definition survivors (duration : Z) (w : World) : list HotRow :=
  match user_counts duration w with
  | [] => []
  | k0 :: _ =>
      filter (fun row => popular (inject_Z k0) row = true)
             (map (annotate duration w (inject_Z k0)) (candidates duration w))
  end.

(** Primary key and owner of a submission row. *)
Definition row_key (s : Submission) : Z * Z := (sub_id s, sub_user s).

(** The ordering score in the words of the specification: the quality
    term [ac_volume / submission_volume] counts as zero when
    [submission_volume] is zero. *)
Definition spec_ordering (exp : Q → Q) (mx : Q) (p : Problem) (k sv ac : Z) : Q :=
  let quality := if Z.eqb sv 0 then 0%Q else (inject_Z ac / inject_Z sv)%Q in
  (0.5 * problem_points p * (0.4 * quality + 0.6 * problem_ac_rate p)
   + 100 * exp (inject_Z k / mx))%Q.

End Reference.
Export Reference.

Module Samples.

Definition a_problem (id : Z) (points : Q) (partial : bool) : Problem :=
  {| problem_id := id; problem_points := points; problem_partial := partial;
     problem_ac_rate := (1 # 2)%Q; is_public := true;
     is_organization_private := false; problem_authors := [7] |}.

Definition a_submission (id user : Z) (p : Problem) (result : option string)
    (points cp ct : Q) (date : Z) : Submission :=
  {| sub_id := id; sub_user := user; sub_problem := p; sub_result := result;
     sub_points := points; case_points := cp; case_total := ct; sub_date := date |}.

(** A rational stand-in for the database's [e ** x] (the first terms of
    the series), so that sample rankings evaluate. *)
Definition exp_series (x : Q) : Q := (1 + x + x * x / 2 + x * x * x / 6)%Q.

Definition a_world (ps : list Problem) (subs : list Submission) (c : Cache) : World :=
  {| settings := {| GLOBAL_SUBMISSION_STAT_UPDATE_INTERVAL := 3600 |};
     now := 1000; db_exp := exp_series; judge_accepts := fun _ => true;
     problems := ps; submissions := subs; contest_submissions := [];
     cache := c; events := []; messages := [];
     judged := []; recalculated := [] |}.

Definition a_breakdown (ac wa ce tle err : Z) : ResultData :=
  {| categories :=
       [ {| cat_code := "AC";  cat_name := "Accepted";      cat_count := ac |};
         {| cat_code := "WA";  cat_name := "Wrong";         cat_count := wa |};
         {| cat_code := "CE";  cat_name := "Compile Error"; cat_count := ce |};
         {| cat_code := "TLE"; cat_name := "Timeout";       cat_count := tle |};
         {| cat_code := "ERR"; cat_name := "Error";         cat_count := err |} ];
     total := ac + wa + ce + tle + err |}.

Definition stats_cache (d : ResultData) : Cache :=
  cache_set_result_data Aggregator.cache_key d 3600 cache_empty.

Definition accepted (id user : Z) (p : Problem) : Submission :=
  a_submission id user p (Some "AC") (problem_points p) 10 10 990.

(** One problem, three users, one accepted submission each, all inside
    the window of 100 seconds before [now]. *)
Definition sparse_world : World :=
  let p := a_problem 1 10 true in
  a_world [p] [accepted 1 1 p; accepted 2 2 p; accepted 3 3 p] cache_empty.

(** Two problems with the same figures; the problem table yields
    problem 2 before problem 1. *)
Definition tie_world : World :=
  let p1 := a_problem 1 10 true in
  let p2 := a_problem 2 10 true in
  a_world [p2; p1]
    [accepted 1 1 p1; accepted 2 2 p1; accepted 3 1 p2; accepted 4 2 p2] cache_empty.

(** One problem whose submissions in the window are all compile errors,
    by two users. *)
Definition compile_error_world : World :=
  let p := a_problem 1 10 true in
  a_world [p]
    [a_submission 1 1 p (Some "CE") 0 0 0 990; a_submission 2 2 p (Some "CE") 0 0 0 995]
    cache_empty.

(** What the ranking shows of a row: the problem id, the three counts
    and the ordering score in lowest terms. *)
Definition summary (row : HotRow) : Z * Z * Z * option Q :=
  (problem_id (hr_problem row), unique_user_count row, submission_volume row,
   Qred <$> hr_ordering row).

(** Profile 1 has three submissions to problem 1, worth 5 points, with
    points 3, 5 and 5; only the last is accepted.  Participation 1 has an
    accepted contest submission with full contest points, participation
    2 one with full points that is not accepted. *)
Definition history_world : World :=
  let p := a_problem 1 5 true in
  let cp := {| cp_problem := p; cp_points := 100 |} in
  let s1 := a_submission 1 1 p (Some "WA") 3 3 5 10 in
  let s2 := a_submission 2 1 p (Some "TLE") 5 5 5 20 in
  let s3 := a_submission 3 1 p (Some "AC") 5 5 5 30 in
  {| settings := {| GLOBAL_SUBMISSION_STAT_UPDATE_INTERVAL := 3600 |};
     now := 1000; db_exp := exp_series; judge_accepts := fun _ => true;
     problems := [p]; submissions := [s1; s2; s3];
     contest_submissions :=
       [ {| cs_participation := 1; cs_submission := s3; cs_problem := cp;
            cs_points := 100 |};
         {| cs_participation := 2; cs_submission := s2; cs_problem := cp;
            cs_points := 100 |} ];
     cache := cache_empty; events := []; messages := [];
     judged := []; recalculated := [] |}.

Definition rejudger : User :=
  {| user_profile := 7;
     user_perms := ["judge.rejudge_submission"; "judge.edit_own_problem"] |}.

(** A user who may rejudge but holds no [judge.edit_own_problem]. *)
Definition rescorer : User :=
  {| user_profile := 8; user_perms := ["judge.rejudge_submission"] |}.

(** Problem 1 gives no partial credit, problem 2 does; both are worth
    100 points.  Profile 5 has 80 of 100 case points on problem 1 and is
    recorded with 80 points, profile 6 has 80 of 100 case points on
    problem 2 and is recorded with 0 points.  The cache holds the
    completed set and the attempted map of profile 5. *)
Definition rescore_world : World :=
  let p1 := a_problem 1 100 false in
  let p2 := a_problem 2 100 true in
  a_world [p1; p2]
    [ a_submission 1 5 p1 (Some "WA") 80 80 100 990;
      a_submission 2 6 p2 (Some "WA") 0 80 100 990 ]
    (cache_set_attempts "user_attempted:5"
       {[ 1 := {| achieved_points := 80; max_points := 100 |} ]} 86400
       (cache_set_ids "user_complete:5" ∅ 86400 cache_empty)).

Definition recorded_points (w : World) : list (Z * Q) :=
  map (fun s => (sub_id s, sub_points s)) (submissions w).

End Samples.
Export Samples.

Module MoreSamples.

(** A world whose cache holds the breakdown of its three submissions:
    one accepted, one wrong, one pending. *)
Definition counted_world : World :=
  let p := a_problem 1 10 true in
  let subs := [ a_submission 1 1 p (Some "AC") 10 10 10 990;
                a_submission 2 2 p (Some "WA") 0 0 10 991;
                a_submission 3 3 p None 0 0 0 992 ] in
  a_world [p] subs (stats_cache (breakdown subs)).

(** A submission that ran out of memory. *)
Definition a_memory_limit : Submission :=
  a_submission 4 1 (a_problem 1 10 true) (Some "MLE") 0 0 10 993.

(** Profile 1 has 3, 7 and 5 points on problem 1, worth 10, and an
    accepted submission with the full 5 points on problem 2. *)
Definition attempt_world : World :=
  let p1 := a_problem 1 10 true in
  let p2 := a_problem 2 5 true in
  a_world [p1; p2]
    [ a_submission 1 1 p1 (Some "WA") 3 3 10 10;
      a_submission 2 1 p1 (Some "WA") 7 7 10 20;
      a_submission 3 1 p1 (Some "TLE") 5 5 10 30;
      a_submission 4 1 p2 (Some "AC") 5 5 5 40 ]
    cache_empty.

End MoreSamples.
Export MoreSamples.

(** * Properties *)

(** Decide a closed decidable proposition by evaluation. *)
Ltac by_compute := apply (bool_decide_unpack _); vm_compute; reflexivity.

(** ** The result breakdown *)

(** C10: a call of [get_result_data] with a positional queryset and at
    least one keyword filter raises [ValueError] and yields no breakdown;
    every other call (queryset only, filters only, neither) returns the
    breakdown of the submissions it selects. *)
Theorem get_result_data_rejects_both (objects : list Submission)
    (args : list (list Submission)) (kwargs : list Filter) :
  (args ≠ [] ∧ kwargs ≠ [] ∧
   ∃ msg, get_result_data objects args kwargs = inl (ValueError msg))
  ∨ ((args = [] ∨ kwargs = []) ∧
     get_result_data objects args kwargs =
       inr (breakdown (match args with
                       | submissions :: _ => submissions
                       | [] => apply_filters kwargs objects
                       end))).
Proof.
  destruct args as [|qs args], kwargs as [|f kwargs]; simpl.
  - right. split; [by left | reflexivity].
  - right. split; [by left | reflexivity].
  - right. split; [by right | reflexivity].
  - left. repeat split; [discriminate | discriminate | eauto].
Qed.

Lemma breakdown_materialized (submissions : list Submission) :
  materialized (breakdown submissions).
Proof. reflexivity. Qed.

(** Every category code of the taxonomy map is a code of [RESULT_TYPES]. *)
Lemma RESULT_TO_TYPE_code (r code : string) :
  RESULT_TO_TYPE !! r = Some code → code ∈ map rt_code RESULT_TYPES.
Proof.
  unfold RESULT_TO_TYPE. cbn [foldl RESULT_TYPES rt_results rt_code map].
  intros H.
  repeat (apply lookup_insert_Some in H as [[_ <-] | [_ H]];
          [by_compute |]).
  by rewrite lookup_empty in H.
Qed.

Lemma add_to_category_absent (code : string) (delta : Z) (cats : list Category) :
  code ∉ map cat_code cats → map (add_to_category code delta) cats = cats.
Proof.
  induction cats as [|c cats IH]; [done |].
  cbn [map]. intros Hnot. apply not_elem_of_cons in Hnot as [Hne Hnot].
  rewrite IH by done. unfold add_to_category.
  destruct (String.eqb_spec (cat_code c) code); congruence.
Qed.

Lemma bump_present (code : string) (delta : Z) (cats : list Category) :
  NoDup (map cat_code cats) → code ∈ map cat_code cats →
  bump code delta cats = (map (add_to_category code delta) cats, true).
Proof.
  induction cats as [|c cats IH]; cbn [map bump].
  - intros _ Hin. by apply elem_of_nil in Hin.
  - intros Hnd Hin. apply NoDup_cons in Hnd as [Hc Hnd].
    unfold add_to_category at 1.
    destruct (String.eqb_spec (cat_code c) code) as [Heq | Hne].
    + subst code. by rewrite add_to_category_absent.
    + apply elem_of_cons in Hin as [Heq | Hin]; [congruence |].
      by rewrite IH.
Qed.

Lemma bump_found (code : string) (delta : Z) (cats : list Category) :
  (bump code delta cats).2 = true → is_Some (count_of code cats).
Proof.
  induction cats as [|c cats IH]; cbn [bump count_of]; [done |].
  destruct (String.eqb (cat_code c) code); [eauto |].
  destruct (bump code delta cats) as [rest found]. exact IH.
Qed.

Lemma bump_nonnegative (code : string) (delta : Z) (cats : list Category) :
  Forall (fun c => 0 <= cat_count c) cats →
  (∀ c, count_of code cats = Some c → 0 <= c + delta) →
  Forall (fun c => 0 <= cat_count c) (bump code delta cats).1.
Proof.
  induction cats as [|c cats IH]; cbn [bump count_of]; [done |].
  intros Hall Hcount. apply Forall_cons in Hall as [Hc Hall].
  destruct (String.eqb (cat_code c) code).
  - constructor; [cbn; by apply Hcount | done].
  - specialize (IH Hall Hcount).
    destruct (bump code delta cats) as [rest found]. by constructor.
Qed.

Lemma materialized_codes (d : ResultData) :
  materialized d → NoDup (map cat_code (categories d)).
Proof.
  unfold materialized. intros ->. by_compute.
Qed.

(** C7: on a materialized cached breakdown, [add_to_result_data] with a
    result code that the taxonomy maps adds [delta] to the count of
    exactly the matching category and to the total, stores the breakdown
    again with the configured interval as TTL, and posts one event with
    the category code and the delta; with a result the taxonomy does not
    map (a pending result, an unknown code) nothing at all changes. *)
Theorem add_to_result_data_effect (w : World) (result : option string) (delta : Z)
    (d : ResultData) (ttl : Z) :
  result_datas (cache w) !! Aggregator.cache_key = Some (d, ttl) →
  materialized d →
  let w' := add_to_result_data result delta w in
  match result ≫= (fun r => RESULT_TO_TYPE !! r) with
  | Some code =>
      result_datas (cache w') !! Aggregator.cache_key =
        Some ({| categories := map (add_to_category code delta) (categories d);
                 total := total d + delta |},
              GLOBAL_SUBMISSION_STAT_UPDATE_INTERVAL (settings w))
      ∧ events w' = (events w ++ [ {| ev_channel := "submissions";
                                      ev_type := "change-global-stats";
                                      ev_result_type := code;
                                      ev_delta := delta |} ])%list
  | None => w' = w
  end.
Proof.
  intros Hget Hmat. unfold add_to_result_data.
  destruct result as [r|]; cbn [mbind option_bind]; [| reflexivity].
  destruct (RESULT_TO_TYPE !! r) as [code|] eqn:Hcode; [| reflexivity].
  rewrite Hget. unfold bump_data.
  rewrite bump_present.
  - split; [| reflexivity]. cbn. by rewrite lookup_insert_eq.
  - by apply materialized_codes.
  - rewrite Hmat. by eapply RESULT_TO_TYPE_code.
Qed.

Lemma add_to_result_data_effect_witness :
  let w := a_world [] [] (stats_cache (a_breakdown 10 5 0 0 0)) in
  result_datas (cache w) !! Aggregator.cache_key = Some (a_breakdown 10 5 0 0 0, 3600)
  ∧ materialized (a_breakdown 10 5 0 0 0)
  ∧ result_datas (cache (add_to_result_data (Some "AC") 1 w)) !! Aggregator.cache_key
      = Some (a_breakdown 11 5 0 0 0, 3600)
  ∧ events (add_to_result_data (Some "AC") 1 w)
      = [ {| ev_channel := "submissions"; ev_type := "change-global-stats";
             ev_result_type := "AC"; ev_delta := 1 |} ].
Proof.
  split; [reflexivity |]. split; [reflexivity |].
  exact (add_to_result_data_effect
           (a_world [] [] (stats_cache (a_breakdown 10 5 0 0 0)))
           (Some "AC") 1 (a_breakdown 10 5 0 0 0) 3600 eq_refl eq_refl).
Defined.

(** C2, as the code has it: [add_to_result_data] adds the delta as it is,
    without clamping.  On a cached breakdown whose counts and total are
    non-negative, the counts and the total stay non-negative when the
    delta takes neither the matched category nor the total below zero. *)
Theorem add_to_result_data_nonnegative (w : World) (result : option string) (delta : Z)
    (d : ResultData) (ttl : Z) :
  result_datas (cache w) !! Aggregator.cache_key = Some (d, ttl) →
  nonnegative d →
  (∀ r code c, result = Some r → RESULT_TO_TYPE !! r = Some code →
               count_of code (categories d) = Some c →
               0 <= c + delta ∧ 0 <= total d + delta) →
  ∃ d' ttl',
    result_datas (cache (add_to_result_data result delta w)) !! Aggregator.cache_key
      = Some (d', ttl')
    ∧ nonnegative d'.
Proof.
  intros Hget [Hcats Htotal] Hdelta. unfold add_to_result_data.
  destruct result as [r|]; [| by exists d, ttl].
  destruct (RESULT_TO_TYPE !! r) as [code|] eqn:Hcode; [| by exists d, ttl].
  rewrite Hget. eexists _, _. split; [cbn; by rewrite lookup_insert_eq |].
  unfold bump_data.
  pose proof (bump_nonnegative code delta (categories d) Hcats) as Hbump.
  pose proof (bump_found code delta (categories d)) as Hfound.
  destruct (bump code delta (categories d)) as [cats found]. cbn in *.
  split.
  - apply Hbump. intros c Hc. by eapply Hdelta.
  - destruct found; [| done].
    destruct Hfound as [c Hc]; [done |]. by eapply Hdelta.
Qed.

Lemma add_to_result_data_nonnegative_witness :
  let w := a_world [] [] (stats_cache (a_breakdown 10 5 0 0 0)) in
  ∃ d' ttl',
    result_datas (cache (add_to_result_data (Some "WA") (-5) w)) !! Aggregator.cache_key
      = Some (d', ttl')
    ∧ nonnegative d'.
Proof.
  apply (add_to_result_data_nonnegative
           (a_world [] [] (stats_cache (a_breakdown 10 5 0 0 0)))
           (Some "WA") (-5) (a_breakdown 10 5 0 0 0) 3600).
  - reflexivity.
  - split; [repeat constructor; cbn; lia | cbn; lia].
  - intros r code c Hr Hcode Hc. injection Hr as <-.
    vm_compute in Hcode. injection Hcode as <-.
    vm_compute in Hc. injection Hc as <-. cbn. lia.
Defined.

(** C2, as stated, fails: a delta below the negated count leaves a
    negative count and a negative total in the cache. *)
Lemma add_to_result_data_negative_count :
  let w := a_world [] [] (stats_cache (a_breakdown 0 5 0 0 0)) in
  nonnegative (a_breakdown 0 5 0 0 0)
  ∧ result_datas (cache w) !! Aggregator.cache_key = Some (a_breakdown 0 5 0 0 0, 3600)
  ∧ ∃ d', result_datas (cache (add_to_result_data (Some "AC") (-6) w))
            !! Aggregator.cache_key = Some (d', 3600)
          ∧ count_of "AC" (categories d') = Some (-6)
          ∧ total d' = -1
          ∧ ¬ nonnegative d'.
Proof.
  split; [split; [repeat constructor; cbn; lia | cbn; lia] |].
  split; [reflexivity |].
  eexists. split; [reflexivity |]. split; [reflexivity |]. split; [reflexivity |].
  intros [Hcats _]. apply Forall_cons in Hcats as [Hneg _]. cbn in Hneg. lia.
Qed.

(** ** Sorting *)

Section SortFacts.
Context {A : Type} (leb : A → A → bool).

Lemma insert_by_Permutation (x : A) (l : list A) : insert_by leb x l ≡ₚ x :: l.
Proof.
  induction l as [|y l IH]; cbn [insert_by]; [done |].
  destruct (leb x y); [done |].
  rewrite IH. apply Permutation_swap.
Qed.

Lemma sort_by_Permutation (l : list A) : sort_by leb l ≡ₚ l.
Proof.
  induction l as [|x l IH]; cbn [sort_by foldr]; [done |].
  fold (sort_by leb l). by rewrite insert_by_Permutation, IH.
Qed.

Hypothesis leb_total : ∀ x y, leb x y = true ∨ leb y x = true.
Hypothesis leb_trans : ∀ x y z, leb x y = true → leb y z = true → leb x z = true.

Lemma insert_by_sorted (x : A) (l : list A) :
  StronglySorted (fun a b => leb a b = true) l →
  StronglySorted (fun a b => leb a b = true) (insert_by leb x l).
Proof.
  induction 1 as [|y l Hl IH Hy]; cbn [insert_by].
  - by repeat constructor.
  - destruct (leb x y) eqn:Hxy.
    + constructor; [by constructor |].
      constructor; [done |].
      eapply Forall_impl; [exact Hy |]. intros z Hyz. by eapply leb_trans.
    + constructor; [done |].
      rewrite insert_by_Permutation. constructor; [| done].
      by destruct (leb_total x y) as [Hle | Hle]; [congruence |].
Qed.

Lemma sort_by_sorted (l : list A) :
  StronglySorted (fun a b => leb a b = true) (sort_by leb l).
Proof.
  induction l as [|x l IH]; cbn [sort_by foldr]; [constructor |].
  by apply insert_by_sorted.
Qed.
End SortFacts.

Lemma desc_nullable_total (a b : option Q) :
  desc_nullable a b = true ∨ desc_nullable b a = true.
Proof.
  destruct a as [x|], b as [y|]; cbn; auto.
  rewrite !Qle_bool_iff. destruct (Qlt_le_dec x y) as [Hlt | Hle]; [| auto].
  right. by apply Qlt_le_weak.
Qed.

Lemma desc_nullable_trans (a b c : option Q) :
  desc_nullable a b = true → desc_nullable b c = true → desc_nullable a c = true.
Proof.
  destruct a as [x|], b as [y|], c as [z|]; cbn; try done.
  rewrite !Qle_bool_iff. intros Hyx Hzy. by eapply Qle_trans.
Qed.

Lemma StronglySorted_take {A : Type} (R : A → A → Prop) (n : nat) (l : list A) :
  StronglySorted R l → StronglySorted R (take n l).
Proof.
  intros Hl. revert n.
  induction Hl as [|x l Hl IH Hx]; intros [|n]; cbn; try constructor.
  - apply IH.
  - eapply Forall_forall. intros y Hy. eapply Forall_forall in Hx; [exact Hx |].
    by eapply subseteq_take.
Qed.

Lemma filter_none {A : Type} (f : A → bool) (l : list A) :
  (∀ x, x ∈ l → f x = false) → filter (fun x => f x = true) l = [].
Proof.
  induction l as [|x l IH]; intros Hall; [done |].
  rewrite filter_cons. rewrite (Hall x) by constructor.
  destruct (decide (false = true)); [done |].
  apply IH. intros y Hy. apply Hall. by constructor.
Qed.

(** ** The hot-problem ranking *)

Lemma hot_problems_miss (duration : Z) (limit : nat) (w : World) :
  rankings (cache w) !! hot_problems_key duration limit = None →
  (hot_problems duration limit w).1 =
    take limit (sort_by (fun a b => desc_nullable (hr_ordering a) (hr_ordering b))
                  (survivors duration w)).
Proof.
  intros Hmiss. unfold hot_problems, survivors, ranking. rewrite Hmiss.
  destruct (user_counts duration w) as [|k0 rest]; [| reflexivity].
  by destruct limit.
Qed.

Lemma hot_problems_survivor (duration : Z) (limit : nat) (w : World) (row : HotRow) :
  rankings (cache w) !! hot_problems_key duration limit = None →
  row ∈ (hot_problems duration limit w).1 → row ∈ survivors duration w.
Proof.
  intros Hmiss Hrow. rewrite hot_problems_miss in Hrow by done.
  apply subseteq_take in Hrow. by rewrite sort_by_Permutation in Hrow.
Qed.

Lemma candidate_windowed (duration : Z) (w : World) (p : Problem) :
  p ∈ candidates duration w → windowed duration w p ≠ [].
Proof.
  unfold candidates. intros Hp. apply list_elem_of_filter in Hp as [Hp _].
  apply andb_true_iff in Hp as [_ Hp]. apply negb_true_iff in Hp.
  by apply bool_decide_eq_false in Hp.
Qed.

Lemma count_users_positive (subs : list Submission) : subs ≠ [] → 0 < count_users subs.
Proof.
  destruct subs as [|s subs]; [done |]. intros _.
  unfold count_users. cbn [map distinct length]. lia.
Qed.

Lemma user_counts_elem (duration : Z) (w : World) (k : Z) :
  k ∈ user_counts duration w ↔
  ∃ p, p ∈ candidates duration w ∧ k = count_users (windowed duration w p).
Proof.
  unfold user_counts. rewrite sort_by_Permutation, list_elem_of_fmap.
  split; intros (p & H1 & H2); exists p; done.
Qed.

Lemma user_counts_head (duration : Z) (w : World) (k0 : Z) (rest : list Z) :
  user_counts duration w = k0 :: rest →
  0 < k0 ∧ ∀ p, p ∈ candidates duration w → count_users (windowed duration w p) <= k0.
Proof.
  intros Hqs0. split.
  - assert (k0 ∈ user_counts duration w) as Hin by (rewrite Hqs0; constructor).
    apply user_counts_elem in Hin as (p & Hp & ->).
    by apply count_users_positive, candidate_windowed.
  - intros p Hp.
    assert (count_users (windowed duration w p) ∈ user_counts duration w) as Hin
      by (apply user_counts_elem; eauto).
    assert (StronglySorted (fun a b => (b <=? a)%Z = true) (user_counts duration w))
      as Hsorted.
    { apply sort_by_sorted.
      - intros x y. rewrite !Z.leb_le. lia.
      - intros x y z. rewrite !Z.leb_le. lia. }
    rewrite Hqs0 in Hin, Hsorted.
    apply StronglySorted_inv in Hsorted as [_ Hall].
    apply elem_of_cons in Hin as [-> | Hin]; [lia |].
    eapply Forall_forall in Hall; [| exact Hin]. by apply Z.leb_le.
Qed.

Lemma survivors_elem (duration : Z) (w : World) (k0 : Z) (rest : list Z) (row : HotRow) :
  user_counts duration w = k0 :: rest →
  row ∈ survivors duration w ↔
  popular (inject_Z k0) row = true ∧
  ∃ p, p ∈ candidates duration w ∧ row = annotate duration w (inject_Z k0) p.
Proof.
  intros Hqs0. unfold survivors. rewrite Hqs0.
  rewrite list_elem_of_filter, list_elem_of_fmap.
  split; intros (Hpop & p & H1 & H2); (split; [done |]); exists p; done.
Qed.

(** C5, as the code has it: with [mx] the largest number of distinct
    users of a candidate (which is positive), every candidate whose
    number of distinct users is at most [max(mx / 3, 1)], and so every
    one with at most [mx / 3], is left out; when [mx <= 1] the ranking is
    empty. *)
Theorem hot_problems_popularity_floor (duration : Z) (limit : nat) (w : World)
    (k0 : Z) (rest : list Z) :
  rankings (cache w) !! hot_problems_key duration limit = None →
  user_counts duration w = k0 :: rest →
  let mx := inject_Z k0 in
  let out := (hot_problems duration limit w).1 in
  (0 < k0 ∧ ∀ p, p ∈ candidates duration w → count_users (windowed duration w p) <= k0)
  ∧ (∀ row, row ∈ out →
       ¬ (inject_Z (unique_user_count row) <= Qmax (mx / 3) 1)%Q
       ∧ ¬ (inject_Z (unique_user_count row) <= mx / 3)%Q)
  ∧ (k0 <= 1 → out = []).
Proof.
  intros Hmiss Hqs0 mx out. split; [by eapply user_counts_head |]. split.
  - intros row Hrow. apply hot_problems_survivor in Hrow; [| done].
    eapply survivors_elem in Hrow as [Hpop _]; [| done].
    unfold popular in Hpop. apply negb_true_iff in Hpop.
    assert (¬ (inject_Z (unique_user_count row) <= Qmax (mx / 3) 1)%Q) as Hfloor.
    { intros Hle. apply Qle_bool_iff in Hle. unfold mx in Hle. congruence. }
    split; [done |]. intros Hle. apply Hfloor.
    eapply Qle_trans; [exact Hle |]. apply Q.le_max_l.
  - intros Hk0. unfold out. rewrite hot_problems_miss by done.
    unfold survivors. rewrite Hqs0. rewrite filter_none; [by destruct limit |].
    intros row Hrow. apply list_elem_of_fmap in Hrow as (p & -> & Hp).
    unfold popular. apply negb_false_iff, Qle_bool_iff. cbn [annotate unique_user_count].
    eapply Qle_trans; [| apply Q.le_max_r].
    change 1%Q with (inject_Z 1). rewrite <- Zle_Qle.
    pose proof (user_counts_head duration w k0 rest Hqs0) as [_ Hmax].
    specialize (Hmax p Hp). lia.
Qed.

Lemma hot_problems_popularity_floor_witness :
  let out := (hot_problems 100 5 tie_world).1 in
  (0 < 2 ∧ ∀ p, p ∈ candidates 100 tie_world →
                count_users (windowed 100 tie_world p) <= 2)
  ∧ (∀ row, row ∈ out →
       ¬ (inject_Z (unique_user_count row) <= Qmax (inject_Z 2 / 3) 1)%Q
       ∧ ¬ (inject_Z (unique_user_count row) <= inject_Z 2 / 3)%Q)
  ∧ (2 <= 1 → out = []).
Proof.
  exact (hot_problems_popularity_floor 100 5 tie_world 2 [2] eq_refl eq_refl).
Defined.

(** C5, as stated, fails for [mx = 3]: a candidate with three distinct
    users passes the floor [max(3 / 3, 1) = 1] and is ranked. *)
Lemma hot_problems_mx_three_ranked :
  user_counts 100 sparse_world = [3]
  ∧ map (fun row => problem_id (hr_problem row)) (hot_problems 100 5 sparse_world).1 = [1]
  ∧ (hot_problems 100 5 sparse_world).1 ≠ [].
Proof.
  split; [reflexivity |]. split; [reflexivity |].
  vm_compute. discriminate.
Qed.

(** C4, as the code has it: the ranking is the first [limit] rows of the
    popular candidates arranged by descending ordering score (NULL
    last); no further key orders rows of equal score. *)
Theorem hot_problems_sorted_truncated (duration : Z) (limit : nat) (w : World) :
  rankings (cache w) !! hot_problems_key duration limit = None →
  let out := (hot_problems duration limit w).1 in
  StronglySorted by_ordering out
  ∧ length out = Nat.min limit (length (survivors duration w))
  ∧ ∃ rest, (out ++ rest)%list ≡ₚ survivors duration w
            ∧ StronglySorted by_ordering (out ++ rest)%list.
Proof.
  intros Hmiss out. unfold out. rewrite hot_problems_miss by done.
  set (sorted := sort_by _ (survivors duration w)).
  assert (StronglySorted by_ordering sorted) as Hsorted.
  { apply (sort_by_sorted (fun a b => desc_nullable (hr_ordering a) (hr_ordering b))).
    - intros x y. apply desc_nullable_total.
    - intros x y z. apply desc_nullable_trans. }
  assert (sorted ≡ₚ survivors duration w) as Hperm by apply sort_by_Permutation.
  split; [by apply StronglySorted_take |]. split.
  - by rewrite length_take, Hperm.
  - exists (drop limit sorted). by rewrite take_drop.
Qed.

Lemma hot_problems_sorted_truncated_witness :
  let out := (hot_problems 100 1 tie_world).1 in
  StronglySorted by_ordering out
  ∧ length out = Nat.min 1 (length (survivors 100 tie_world))
  ∧ ∃ rest, (out ++ rest)%list ≡ₚ survivors 100 tie_world
            ∧ StronglySorted by_ordering (out ++ rest)%list.
Proof.
  exact (hot_problems_sorted_truncated 100 1 tie_world eq_refl).
Defined.

(** C4, as stated, fails: two candidates of equal ordering score come out
    with problem 2 before problem 1. *)
Lemma hot_problems_tie_not_by_id :
  map summary (hot_problems 100 5 tie_world).1
    = [ (2, 2, 2, Some (1621 # 6)%Q); (1, 2, 2, Some (1621 # 6)%Q) ].
Proof. vm_compute. reflexivity. Qed.

Lemma ordering_zero_volume (exp : Q → Q) (mx : Q) (p : Problem) (k ac : Z) :
  ordering exp mx p k 0 ac = None.
Proof. reflexivity. Qed.

(** C3 on a problem whose two submissions in the window are compile
    errors by two users: the problem passes the floor, its
    [submission_volume] is 0, and the ordering expression divides by it:
    the score is NULL, not the score with a zero quality term. *)
Theorem hot_problems_zero_volume_null :
  map summary (hot_problems 100 5 compile_error_world).1 = [ (1, 2, 0, None) ]
  ∧ Qred (spec_ordering exp_series 2 (a_problem 1 10 true) 2 0 0) = (1609 # 6)%Q.
Proof. split; vm_compute; reflexivity. Qed.

(** ** Completed sets *)

Lemma distinct_elem (l : list Z) (x : Z) : x ∈ distinct l ↔ x ∈ l.
Proof.
  induction l as [|y l IH]; cbn [distinct]; [done |].
  rewrite !elem_of_cons, list_elem_of_filter, IH.
  destruct (decide (x = y)); tauto.
Qed.

Lemma distinct_NoDup (l : list Z) : NoDup (distinct l).
Proof.
  induction l as [|y l IH]; cbn [distinct]; [constructor |].
  apply NoDup_cons. split; [| by apply NoDup_filter].
  rewrite list_elem_of_filter. intros [Hne _]. by apply Hne.
Qed.

(** C9: when the cache holds no entry for the identity, the completed
    ids of a profile, and of a contest participation, are exactly the ids
    of the problems for which one of the identity's submissions has
    result AC and points equal to the points of the problem; the query
    yields each such id once. *)
Theorem completed_ids_exact (profile participation : Z) (w : World) :
  id_sets (cache w) !! user_complete_key profile = None →
  id_sets (cache w) !! contest_complete_key participation = None →
  (NoDup (user_completed_query profile w)
   ∧ ∀ id, id ∈ (user_completed_ids profile w).1 ↔
       ∃ s, s ∈ submissions w
            ∧ sub_user s = profile
            ∧ sub_result s = Some "AC"
            ∧ (sub_points s == problem_points (sub_problem s))%Q
            ∧ problem_id (sub_problem s) = id)
  ∧ (NoDup (contest_completed_query participation w)
     ∧ ∀ id, id ∈ (contest_completed_ids participation w).1 ↔
         ∃ cs, cs ∈ contest_submissions w
               ∧ cs_participation cs = participation
               ∧ sub_result (cs_submission cs) = Some "AC"
               ∧ (cs_points cs == cp_points (cs_problem cs))%Q
               ∧ problem_id (cp_problem (cs_problem cs)) = id).
Proof.
  intros Huser Hcontest. split; (split; [apply distinct_NoDup |]); intros id.
  - unfold user_completed_ids. rewrite Huser. cbn [fst].
    rewrite elem_of_list_to_set. unfold user_completed_query.
    rewrite distinct_elem, list_elem_of_fmap.
    split.
    + intros (s & -> & Hs). apply list_elem_of_filter in Hs as [Hs Hin].
      apply andb_true_iff in Hs as [Hs Hpoints].
      apply andb_true_iff in Hs as [Huid Hres].
      exists s. repeat split; [done | by apply Z.eqb_eq |
        by apply bool_decide_eq_true in Hres | by apply Qeq_bool_iff].
    + intros (s & Hin & Huid & Hres & Hpoints & <-). exists s. split; [done |].
      apply list_elem_of_filter. split; [| done].
      rewrite !andb_true_iff. repeat split;
        [by apply Z.eqb_eq | by apply bool_decide_eq_true | by apply Qeq_bool_iff].
  - unfold contest_completed_ids. rewrite Hcontest. cbn [fst].
    rewrite elem_of_list_to_set. unfold contest_completed_query.
    rewrite distinct_elem, list_elem_of_fmap.
    split.
    + intros (cs & -> & Hs). apply list_elem_of_filter in Hs as [Hs Hin].
      apply andb_true_iff in Hs as [Hs Hpoints].
      apply andb_true_iff in Hs as [Hpid Hres].
      exists cs. repeat split; [done | by apply Z.eqb_eq |
        by apply bool_decide_eq_true in Hres | by apply Qeq_bool_iff].
    + intros (cs & Hin & Hpid & Hres & Hpoints & <-). exists cs. split; [done |].
      apply list_elem_of_filter. split; [| done].
      rewrite !andb_true_iff. repeat split;
        [by apply Z.eqb_eq | by apply bool_decide_eq_true | by apply Qeq_bool_iff].
Qed.

Lemma completed_ids_exact_witness :
  (NoDup (user_completed_query 1 history_world)
   ∧ ∀ id, id ∈ (user_completed_ids 1 history_world).1 ↔
       ∃ s, s ∈ submissions history_world
            ∧ sub_user s = 1
            ∧ sub_result s = Some "AC"
            ∧ (sub_points s == problem_points (sub_problem s))%Q
            ∧ problem_id (sub_problem s) = id)
  ∧ (NoDup (contest_completed_query 2 history_world)
     ∧ ∀ id, id ∈ (contest_completed_ids 2 history_world).1 ↔
         ∃ cs, cs ∈ contest_submissions history_world
               ∧ cs_participation cs = 2
               ∧ sub_result (cs_submission cs) = Some "AC"
               ∧ (cs_points cs == cp_points (cs_problem cs))%Q
               ∧ problem_id (cp_problem (cs_problem cs)) = id).
Proof.
  exact (completed_ids_exact 1 2 history_world eq_refl eq_refl).
Defined.

(** The history of the specification: problem 1 is completed for
    profile 1, whose only accepted submission has full points; it is not
    for participation 2, whose full-points submission is not accepted;
    a cached set is returned as it is. *)
Example completed_ids_history :
  user_completed_query 1 history_world = [1]
  ∧ contest_completed_query 1 history_world = [1]
  ∧ contest_completed_query 2 history_world = []
  ∧ id_sets (cache (user_completed_ids 1 history_world).2) !! "user_complete:1"
      = Some ({[ 1 ]}, 86400).
Proof. repeat split; vm_compute; reflexivity. Qed.

(** ** Rescoring *)

Lemma write_row_id (s row : Submission) : sub_id (write_row s row) = sub_id row.
Proof. unfold write_row. by destruct (Z.eqb _ _). Qed.

Lemma write_row_user (s row : Submission) : sub_user (write_row s row) = sub_user row.
Proof. unfold write_row. by destruct (Z.eqb _ _). Qed.

Lemma rescore_one_rows (w : World) (s : Submission) :
  ∃ s', sub_id s' = sub_id s ∧ sub_points s' = rescored_points s
        ∧ submissions (rescore_one w s) = map (write_row s') (submissions w).
Proof. eexists. split; [| split]; [| | reflexivity]; reflexivity. Qed.

Lemma rescore_fold_points (l : list Submission) (w : World) (row s : Submission) :
  NoDup (map sub_id l) →
  row ∈ submissions (foldl rescore_one w l) →
  s ∈ l → sub_id row = sub_id s →
  sub_points row = rescored_points s.
Proof.
  revert row s. induction l as [|s0 l IH] using rev_ind; intros row s Hnd Hrow Hs Hid.
  - by apply elem_of_nil in Hs.
  - rewrite map_app in Hnd. apply NoDup_app in Hnd as (Hnd & Hfresh & _).
    rewrite foldl_snoc in Hrow.
    destruct (rescore_one_rows (foldl rescore_one w l) s0) as (s' & Hid' & Hpts & Hmap).
    rewrite Hmap in Hrow.
    apply list_elem_of_fmap in Hrow as (row' & -> & Hrow').
    rewrite write_row_id in Hid. unfold write_row.
    destruct (Z.eqb_spec (sub_id row') (sub_id s')) as [Heq | Hne].
    + cbn. apply elem_of_app in Hs as [Hs | Hs].
      * exfalso. apply (Hfresh (sub_id s)).
        -- apply list_elem_of_fmap. eauto.
        -- cbn. rewrite <- Hid, Heq, Hid'. constructor.
      * apply list_elem_of_singleton in Hs as ->. done.
    + apply elem_of_app in Hs as [Hs | Hs].
      * by apply IH.
      * apply list_elem_of_singleton in Hs as ->. congruence.
Qed.

Lemma rescore_fold_keys (l : list Submission) (w : World) :
  map row_key (submissions (foldl rescore_one w l)) = map row_key (submissions w).
Proof.
  induction l as [|s0 l IH] using rev_ind; [done |].
  rewrite foldl_snoc.
  destruct (rescore_one_rows (foldl rescore_one w l) s0) as (s' & _ & _ & ->).
  rewrite <- IH, map_map. apply map_ext. intros row. unfold row_key.
  by rewrite write_row_id, write_row_user.
Qed.

Lemma rescore_fold_frame (l : list Submission) (w : World) :
  cache (foldl rescore_one w l) = cache w
  ∧ events (foldl rescore_one w l) = events w
  ∧ messages (foldl rescore_one w l) = messages w
  ∧ judged (foldl rescore_one w l) = judged w
  ∧ recalculated (foldl rescore_one w l) = recalculated w.
Proof.
  induction l as [|s0 l IH] using rev_ind; [done |].
  rewrite foldl_snoc. exact IH.
Qed.

Lemma refresh_fold_submissions (owners : list Z) (w : World) :
  submissions (foldl refresh_profile w owners) = submissions w.
Proof.
  induction owners as [|p owners IH] using rev_ind; [done |].
  rewrite foldl_snoc. exact IH.
Qed.

Lemma recalculate_score_rows (user : User) (selected : list Z) (w : World) :
  has_perm user "judge.rejudge_submission" = true →
  submissions (recalculate_score user selected w)
    = submissions (foldl rescore_one w (select selected w)).
Proof.
  intros Hperm. unfold recalculate_score. rewrite Hperm. cbn [negb].
  cbv zeta. cbn [message_user submissions]. apply refresh_fold_submissions.
Qed.

Lemma select_ids_NoDup (selected : list Z) (w : World) :
  NoDup (map sub_id (submissions w)) → NoDup (map sub_id (select selected w)).
Proof.
  unfold select. induction (submissions w) as [|s l IH]; [done |].
  cbn [map]. intros Hnd. apply NoDup_cons in Hnd as [Hs Hnd].
  rewrite filter_cons. destruct (decide (sub_id s ∈ selected)); [| by apply IH].
  cbn [map]. apply NoDup_cons. split; [| by apply IH].
  intros Hin. apply Hs. apply list_elem_of_fmap in Hin as (s' & -> & Hin).
  apply list_elem_of_filter in Hin as [_ Hin]. apply list_elem_of_fmap. eauto.
Qed.

Lemma Zround_half_away_near (q : Q) :
  let n := Zround_half_away q in
  ((0 <= q)%Q → (- (1 # 2) <= q - inject_Z n < 1 # 2)%Q)
  ∧ ((q < 0)%Q → (- (1 # 2) < q - inject_Z n <= 1 # 2)%Q).
Proof.
  unfold Zround_half_away. destruct (Qle_bool 0 q) eqn:Hsign.
  - pose proof (Qfloor_le (q + (1 # 2))) as Hlow.
    pose proof (Qlt_floor (q + (1 # 2))) as Hhigh.
    rewrite inject_Z_plus in Hhigh. change (inject_Z 1) with 1%Q in Hhigh.
    apply Qle_bool_iff in Hsign.
    set (n := inject_Z _) in *. clearbody n. split; intros Hq; lra.
  - pose proof (Qfloor_le (- q + (1 # 2))) as Hlow.
    pose proof (Qlt_floor (- q + (1 # 2))) as Hhigh.
    rewrite inject_Z_plus in Hhigh. change (inject_Z 1) with 1%Q in Hhigh.
    rewrite inject_Z_opp.
    apply not_true_iff_false in Hsign. rewrite Qle_bool_iff in Hsign.
    set (n := inject_Z _) in *. clearbody n.
    split; intros Hq; [by destruct Hsign | lra].
Qed.

Lemma py_round_tenth (x : Q) : rounded_to_tenth x (py_round x 1).
Proof.
  exists (Zround_half_away (x * 10)). split; [reflexivity |].
  destruct (Zround_half_away_near (x * 10)) as [Hpos Hneg].
  destruct (Qlt_le_dec (x * 10) 0) as [Hx | Hx];
    [specialize (Hneg Hx) | specialize (Hpos Hx)]; lra.
Qed.

(** C8: after an authorized rescore, the points stored for every
    submission of the batch come from
    [round(case_points / case_total * problem.points, 1)], computed on
    floats, when [case_total > 0] (the value is the float nearest to the
    tenth nearest to that product) and from 0 when [case_total = 0]; they
    are that value, or 0 when the problem gives no partial credit and the
    value is below the problem's points. *)
Theorem recalculate_score_points (user : User) (selected : list Z) (w : World)
    (s : Submission) :
  has_perm user "judge.rejudge_submission" = true →
  NoDup (map sub_id (submissions w)) →
  s ∈ select selected w →
  let w' := recalculate_score user selected w in
  let max_points := problem_points (sub_problem s) in
  (∃ row, row ∈ submissions w' ∧ sub_id row = sub_id s)
  ∧ ∀ row, row ∈ submissions w' → sub_id row = sub_id s →
      ∃ r,
        ((0 < case_total s)%Q →
         rounded_to_tenth
           (float_mul (float_div (case_points s) (case_total s)) max_points) r)
        ∧ ((case_total s == 0)%Q → r = 0%Q)
        ∧ (problem_partial (sub_problem s) = false ∧ (r < max_points)%Q →
           sub_points row = 0%Q)
        ∧ (¬ (problem_partial (sub_problem s) = false ∧ (r < max_points)%Q) →
           sub_points row = r).
Proof.
  intros Hperm Hnd Hs w' max_points. subst w' max_points.
  rewrite recalculate_score_rows by done. split.
  - assert (row_key s ∈ map row_key (submissions w)) as Hkey.
    { apply list_elem_of_fmap. exists s. split; [done |].
      unfold select in Hs. by apply list_elem_of_filter in Hs as [_ Hs]. }
    rewrite <- (rescore_fold_keys (select selected w) w) in Hkey.
    apply list_elem_of_fmap in Hkey as (row & Hkey & Hrow).
    exists row. split; [done |]. by injection Hkey.
  - intros row Hrow Hid.
    rewrite (rescore_fold_points (select selected w) w row s)
      by (by apply select_ids_NoDup || done).
    unfold rescored_points.
    set (r := py_round _ 1). exists r. subst r.
    split; [| split; [| split]].
    + intros Hct. destruct (Qeq_bool (case_total s) 0) eqn:Hzero.
      * apply Qeq_bool_iff in Hzero. lra.
      * apply py_round_tenth.
    + intros Hzero. apply Qeq_bool_iff in Hzero. rewrite Hzero. reflexivity.
    + intros [-> Hlt]. cbn [negb andb]. unfold Qltb.
      destruct (Qle_bool _ _) eqn:Hle; [| done].
      apply Qle_bool_iff in Hle. lra.
    + intros Hnot. destruct (problem_partial (sub_problem s)); [done |].
      cbn [negb andb]. unfold Qltb. destruct (Qle_bool _ _) eqn:Hle; [done |].
      exfalso. apply Hnot. split; [done |].
      apply not_true_iff_false in Hle. rewrite Qle_bool_iff in Hle. lra.
Qed.

Lemma recalculate_score_points_witness :
  let s := a_submission 1 5 (a_problem 1 100 false) (Some "WA") 80 80 100 990 in
  let w' := recalculate_score rescorer [1; 2] rescore_world in
  let max_points := problem_points (sub_problem s) in
  (∃ row, row ∈ submissions w' ∧ sub_id row = sub_id s)
  ∧ ∀ row, row ∈ submissions w' → sub_id row = sub_id s →
      ∃ r,
        ((0 < case_total s)%Q →
         rounded_to_tenth
           (float_mul (float_div (case_points s) (case_total s)) max_points) r)
        ∧ ((case_total s == 0)%Q → r = 0%Q)
        ∧ (problem_partial (sub_problem s) = false ∧ (r < max_points)%Q →
           sub_points row = 0%Q)
        ∧ (¬ (problem_partial (sub_problem s) = false ∧ (r < max_points)%Q) →
           sub_points row = r).
Proof.
  apply (recalculate_score_points rescorer [1; 2] rescore_world
           (a_submission 1 5 (a_problem 1 100 false) (Some "WA") 80 80 100 990)).
  - reflexivity.
  - by_compute.
  - apply list_elem_of_In. vm_compute. left. reflexivity.
Defined.

(** Floats at work: 199 of 200 case points on a problem worth 10 give
    the float just below 9.95, which rounds to 9.9 and so, without
    partial credit, to 0; a third of 10 points is stored as the float
    nearest to 3.3; full case points give the points of the problem. *)
Example rescored_points_floats :
  let scored (cp ct points : Q) (partial : bool) :=
    rescored_points (a_submission 1 1 (a_problem 1 points partial) None 0 cp ct 0) in
  float_mul (float_div 199 200) 10 = (2800676018271027 # 281474976710656)%Q
  ∧ scored 199%Q 200%Q 10%Q true = (5573204538870989 # 562949953421312)%Q
  ∧ scored 199%Q 200%Q 10%Q false = 0%Q
  ∧ scored 1%Q 3%Q 10%Q true = (3715469692580659 # 1125899906842624)%Q
  ∧ scored 7%Q 7%Q 10%Q false = 10%Q
  ∧ scored 5%Q 0%Q 10%Q true = 0%Q.
Proof. repeat split; vm_compute; reflexivity. Qed.

(** The example of the specification: 80 of 100 case points on a problem
    worth 100 rescales to 80.0, which stays for the problem with partial
    credit and becomes 0 for the one without. *)
Example recalculate_score_all_or_nothing :
  recorded_points rescore_world = [(1, 80%Q); (2, 0%Q)]
  ∧ recorded_points (recalculate_score rescorer [1; 2] rescore_world)
      = [(1, 0%Q); (2, 80%Q)].
Proof. split; vm_compute; reflexivity. Qed.

(** ** Authorization of the two actions *)

(** [judge] with a failing gate (no rejudge permission, no
    edit-own-problem permission, or more than ten submissions without
    the permission for lots) only reports an error. *)
Lemma judge_gate (user : User) (selected : list Z) (w : World) :
  has_perm user "judge.rejudge_submission" = false
  ∨ has_perm user "judge.edit_own_problem" = false
  ∨ (10 < Z.of_nat (length (select selected w))
     ∧ has_perm user "judge.rejudge_submission_lot" = false) →
  ∃ msg, judge user selected w = message_user ERROR msg w.
Proof.
  unfold judge. intros [Hperm | [Hperm | [Hmany Hperm]]].
  - rewrite Hperm. eauto.
  - rewrite Hperm, orb_true_r. eauto.
  - destruct (_ || _); [eauto |].
    rewrite (Permutation_length (sort_by_Permutation _ (select selected w))).
    rewrite Hperm. apply Z.ltb_lt in Hmany. rewrite Hmany. eauto.
Qed.

(** [recalculate_score] without the rejudge permission only reports an
    error. *)
Lemma recalculate_score_gate (user : User) (selected : list Z) (w : World) :
  has_perm user "judge.rejudge_submission" = false →
  recalculate_score user selected w
    = message_user ERROR "You do not have the permission to rejudge submissions." w.
Proof. unfold recalculate_score. by intros ->. Qed.

(** C1: dispatched by the admin, the rejudge and the rescore action both
    need the caller to hold the rejudge and the edit-own-problem
    permission, and the rejudge of more than ten submissions the
    permission for lots as well: when one of these is missing the
    operation reports an error (the request is denied, or an error
    message is added) and changes nothing else: no submission is
    judged or rescored and no cache entry is touched. *)
Theorem admin_actions_gated (user : User) (selected : list Z) (w : World) :
  let batch := changelist_selection user selected w in
  (has_perm user "judge.rejudge_submission" = false
   ∨ has_perm user "judge.edit_own_problem" = false
   ∨ (10 < Z.of_nat (length (select batch w))
      ∧ has_perm user "judge.rejudge_submission_lot" = false) →
   refused w (changelist_action judge user selected w))
  ∧ (has_perm user "judge.rejudge_submission" = false
     ∨ has_perm user "judge.edit_own_problem" = false →
     refused w (changelist_action recalculate_score user selected w)).
Proof.
  intros batch. unfold refused, changelist_action, has_change_permission.
  destruct (has_perm user "judge.edit_own_problem") eqn:Hown; cbn [negb].
  - split.
    + intros Hgate. right.
      destruct (judge_gate user batch w) as [msg Hmsg]; [| by exists msg; rewrite <- Hmsg].
      rewrite Hown. exact Hgate.
    + intros [Hperm | Hfalse]; [| discriminate Hfalse]. right.
      exists "You do not have the permission to rejudge submissions.".
      by rewrite <- (recalculate_score_gate user batch w Hperm).
  - split; intros _; by left.
Qed.

Lemma admin_actions_gated_witness :
  refused rescore_world (changelist_action judge rescorer [1] rescore_world)
  ∧ refused rescore_world (changelist_action recalculate_score rescorer [1] rescore_world).
Proof.
  destruct (admin_actions_gated rescorer [1] rescore_world) as [Hjudge Hrescore].
  split; [apply Hjudge; right; left; reflexivity | apply Hrescore; right; reflexivity].
Defined.

(** The caller without [judge.edit_own_problem] is denied the change
    list, and would be handed no row; a caller who holds it but not the
    rejudge permission gets the error message of the action. *)
Example admin_actions_refused :
  changelist_action recalculate_score rescorer [1] rescore_world = inl PermissionDenied
  ∧ changelist_selection rescorer [1; 2] rescore_world = []
  ∧ changelist_selection rejudger [1; 2] rescore_world = [1; 2]
  ∧ changelist_action recalculate_score
      {| user_profile := 7; user_perms := ["judge.edit_own_problem"] |} [1] rescore_world
    = inr (message_user ERROR "You do not have the permission to rejudge submissions."
             rescore_world).
Proof. repeat split; vm_compute; reflexivity. Qed.

(** ** Cache invalidation after a rescore *)

Lemma refresh_profile_completed (w : World) (p q : Z) :
  id_sets (cache w) !! user_complete_key q = None →
  id_sets (cache (refresh_profile w p)) !! user_complete_key q = None.
Proof.
  intros Hnone. cbn. apply lookup_delete_None. by right.
Qed.

Lemma refresh_fold_completed (owners : list Z) (w : World) (q : Z) :
  q ∈ owners →
  id_sets (cache (foldl refresh_profile w owners)) !! user_complete_key q = None.
Proof.
  induction owners as [|p owners IH] using rev_ind; intros Hq.
  - by apply elem_of_nil in Hq.
  - rewrite foldl_snoc. apply elem_of_app in Hq as [Hq | Hq].
    + by apply refresh_profile_completed, IH.
    + apply list_elem_of_singleton in Hq as ->. cbn. apply lookup_delete_eq.
Qed.

Lemma select_users (selected : list Z) (w w' : World) :
  map row_key (submissions w') = map row_key (submissions w) →
  map sub_user (select selected w') = map sub_user (select selected w).
Proof.
  unfold select. generalize (submissions w). generalize (submissions w').
  induction l as [|s' l' IH]; intros [|s l] Hkeys; try done.
  cbn in Hkeys. injection Hkeys as Hid Huser Hkeys.
  rewrite !filter_cons, Hid.
  destruct (decide (sub_id s ∈ selected)); cbn [map]; rewrite (IH l) by done; congruence.
Qed.

(** After an authorized rescore no completed set is cached for an owner
    of a submission of the batch. *)
Lemma recalculate_score_drops_completed (user : User) (selected : list Z) (w : World)
    (s : Submission) :
  has_perm user "judge.rejudge_submission" = true →
  s ∈ select selected w →
  id_sets (cache (recalculate_score user selected w)) !! user_complete_key (sub_user s)
    = None.
Proof.
  intros Hperm Hs. unfold recalculate_score. rewrite Hperm. cbn [negb]. cbv zeta.
  cbn [message_user cache]. apply refresh_fold_completed.
  apply distinct_elem. rewrite (select_users selected w) by apply rescore_fold_keys.
  apply list_elem_of_fmap. eauto.
Qed.

Lemma attempted_key_differs (p q : Z) : user_complete_key q ≠ user_attempted_key p.
Proof. unfold user_complete_key, user_attempted_key. cbn. discriminate. Qed.

Lemma refresh_fold_attempted (owners : list Z) (w : World) (p : Z) :
  attempt_maps (cache (foldl refresh_profile w owners)) !! user_attempted_key p
    = attempt_maps (cache w) !! user_attempted_key p.
Proof.
  induction owners as [|q owners IH] using rev_ind; [done |].
  rewrite foldl_snoc. cbn. rewrite lookup_delete_ne by apply attempted_key_differs.
  exact IH.
Qed.

(** No rescore touches the cached attempted map of any profile. *)
Lemma recalculate_score_keeps_attempted (user : User) (selected : list Z) (w : World)
    (p : Z) :
  attempt_maps (cache (recalculate_score user selected w)) !! user_attempted_key p
    = attempt_maps (cache w) !! user_attempted_key p.
Proof.
  unfold recalculate_score. destruct (negb _); [done |]. cbv zeta.
  cbn [message_user cache]. rewrite refresh_fold_attempted.
  by destruct (rescore_fold_frame (select selected w) w) as [-> _].
Qed.

(** C6 on profile 5, whose submission is rescored from 80 to 0 points:
    the cached completed set of the profile is deleted, the cached
    attempted map is not, and the next [user_attempted_ids] returns the
    old 80 points where the store now yields 0. *)
Theorem recalculate_score_leaves_attempted :
  let w' := recalculate_score rejudger [1] rescore_world in
  id_sets (cache w') !! user_complete_key 5 = None
  ∧ attempt_maps (cache w') !! user_attempted_key 5
      = Some ({[ 1 := {| achieved_points := 80; max_points := 100 |} ]}, 86400)
  ∧ (user_attempted_ids 5 w').1
      = {[ 1 := {| achieved_points := 80; max_points := 100 |} ]}
  ∧ user_attempted_query 5 w'
      = [ (1, {| achieved_points := 0; max_points := 100 |}) ].
Proof. repeat split; vm_compute; reflexivity. Qed.

(** * Further properties *)

(** ** What the breakdown counts *)

Lemma sum_Z_app (l k : list Z) : sum_Z (l ++ k) = sum_Z l + sum_Z k.
Proof. unfold sum_Z. induction l as [|x l IH]; cbn [app foldr]; lia. Qed.

Lemma sum_Z_Permutation (l k : list Z) : l ≡ₚ k → sum_Z l = sum_Z k.
Proof. unfold sum_Z. induction 1; cbn [foldr]; lia. Qed.

Lemma sum_Z_plus {A : Type} (f g : A → Z) (l : list A) :
  sum_Z (map (fun x => f x + g x) l) = sum_Z (map f l) + sum_Z (map g l).
Proof. unfold sum_Z. induction l as [|x l IH]; cbn [map foldr]; lia. Qed.

Lemma sum_indicator {A : Type} `{EqDecision A} (x : A) (l : list A) :
  NoDup l →
  sum_Z (map (fun y => indicator (bool_decide (y = x))) l)
    = indicator (bool_decide (x ∈ l)).
Proof.
  induction 1 as [|y l Hy Hl IH]; [done |].
  cbn [map sum_Z foldr]. fold (sum_Z (map (fun y => indicator (bool_decide (y = x))) l)).
  rewrite IH. unfold indicator.
  destruct (decide (y = x)) as [-> | Hne].
  - rewrite bool_decide_eq_true_2 by done.
    rewrite (bool_decide_eq_false_2 (x ∈ l)) by done.
    rewrite bool_decide_eq_true_2 by constructor. done.
  - rewrite bool_decide_eq_false_2 by done.
    destruct (decide (x ∈ l)).
    + rewrite !bool_decide_eq_true_2; [done | by constructor | done].
    + rewrite !bool_decide_eq_false_2; [done | | done].
      intros Hin. apply elem_of_cons in Hin as [-> | ?]; done.
Qed.

Lemma distinct_results_elem (r : option string) (rs : list (option string)) :
  r ∈ distinct_results rs ↔ r ∈ rs.
Proof.
  induction rs as [|x rs IH]; cbn [distinct_results]; [done |].
  rewrite elem_of_cons. destruct (decide (x ∈ rs)) as [Hin | Hnot].
  - rewrite bool_decide_eq_true_2 by done. rewrite IH.
    split; [tauto |]. intros [-> | ?]; done.
  - rewrite bool_decide_eq_false_2 by done. rewrite elem_of_cons, IH. done.
Qed.

Lemma distinct_results_NoDup (rs : list (option string)) : NoDup (distinct_results rs).
Proof.
  induction rs as [|x rs IH]; cbn [distinct_results]; [constructor |].
  destruct (decide (x ∈ rs)) as [Hin | Hnot].
  - by rewrite bool_decide_eq_true_2.
  - rewrite bool_decide_eq_false_2 by done. constructor; [| done].
    by rewrite distinct_results_elem.
Qed.

Lemma result_counts_keys (subs : list Submission) :
  (result_counts subs).*1 = distinct_results (map sub_result subs).
Proof.
  unfold result_counts. generalize (distinct_results (map sub_result subs)).
  induction l as [|r l IH]; cbn; [done |]. by f_equal.
Qed.

Lemma result_counts_elem (subs : list Submission) (r : option string) (c : Z) :
  (r, c) ∈ result_counts subs ↔ r ∈ map sub_result subs ∧ c = occurrences r subs.
Proof.
  unfold result_counts. rewrite list_elem_of_fmap. split.
  - intros (r' & Heq & Hin). injection Heq as -> ->.
    rewrite distinct_results_elem in Hin. split; [done |]. by destruct r'.
  - intros [Hin ->]. exists r. split; [by destruct r |].
    by apply distinct_results_elem.
Qed.

Lemma results_dict_snoc (raw : list (option string * Z)) (kv : option string * Z) :
  results_dict (raw ++ [kv]) = <[kv.1 := kv.2]> (results_dict raw).
Proof. unfold results_dict. by rewrite foldl_snoc. Qed.

Lemma results_dict_lookup (raw : list (option string * Z)) (k : option string) (v : Z) :
  NoDup (raw.*1) → results_dict raw !! k = Some v ↔ (k, v) ∈ raw.
Proof.
  induction raw as [|[k' v'] raw IH] using rev_ind; intros Hnd.
  - cbn. rewrite lookup_empty. split; [done |]. intros H. by apply elem_of_nil in H.
  - rewrite fmap_app in Hnd. apply NoDup_app in Hnd as (Hnd & Hfresh & _).
    rewrite results_dict_snoc, lookup_insert_Some, elem_of_app, list_elem_of_singleton.
    rewrite (IH Hnd). cbn [fst snd]. split.
    + intros [[-> ->] | [_ Hin]]; [by right | by left].
    + intros [Hin | Heq]; [| injection Heq as -> ->; by left].
      right. split; [| done]. intros ->. apply (Hfresh k).
      * apply list_elem_of_fmap. by exists (k, v).
      * cbn. constructor.
Qed.

Lemma results_dict_items (raw : list (option string * Z)) :
  NoDup (raw.*1) → map_to_list (results_dict raw) ≡ₚ raw.
Proof.
  intros Hnd. apply NoDup_Permutation.
  - apply NoDup_map_to_list.
  - by eapply NoDup_fmap_1.
  - intros [k v]. rewrite elem_of_map_to_list. by apply results_dict_lookup.
Qed.

Lemma result_counts_lookup (subs : list Submission) (k : option string) (v : Z) :
  results_dict (result_counts subs) !! k = Some v
  ↔ k ∈ map sub_result subs ∧ v = occurrences k subs.
Proof.
  rewrite results_dict_lookup, result_counts_elem; [done |].
  rewrite result_counts_keys. apply distinct_results_NoDup.
Qed.

Lemma dict_get_occurrences (subs : list Submission) (status : string) :
  dict_get (results_dict (result_counts subs)) status = occurrences (Some status) subs.
Proof.
  unfold dict_get.
  destruct (results_dict (result_counts subs) !! Some status) as [v|] eqn:Hv.
  - apply result_counts_lookup in Hv as [_ ->]. done.
  - cbn [default]. destruct (decide (Some status ∈ map sub_result subs)) as [Hin | Hnot].
    + assert (results_dict (result_counts subs) !! Some status
              = Some (occurrences (Some status) subs)) as Hc
        by by apply result_counts_lookup.
      congruence.
    + cbn [occurrences]. rewrite filter_none; [done |].
      intros s Hs. apply bool_decide_eq_false. intros Hres. apply Hnot.
      apply list_elem_of_fmap. by exists s.
Qed.

Lemma occurrences_cons (r : option string) (s : Submission) (subs : list Submission) :
  occurrences r (s :: subs)
    = occurrences r subs
      + indicator (bool_decide (r = sub_result s)) * indicator (bool_decide (is_Some r)).
Proof.
  destruct r as [x|]; cbn [occurrences].
  - rewrite filter_cons. unfold result_is at 1.
    rewrite (bool_decide_eq_true_2 (is_Some (Some x))) by eauto.
    destruct (decide (Some x = sub_result s)) as [Heq | Hne].
    + rewrite (bool_decide_eq_true_2 (Some x = sub_result s)) by done.
      rewrite decide_True by by apply bool_decide_eq_true.
      cbn [length indicator]. lia.
    + rewrite (bool_decide_eq_false_2 (Some x = sub_result s)) by done.
      rewrite decide_False.
      * cbn [indicator]. lia.
      * intros Hres. apply bool_decide_eq_true in Hres. congruence.
  - rewrite (bool_decide_eq_false_2 (is_Some None)); [unfold indicator; lia |].
    by intros [? ?].
Qed.

Lemma count_results_cons (rs : list string) (s : Submission) (subs : list Submission) :
  count_results rs (s :: subs)
    = count_results rs subs
      + indicator (match sub_result s with
                   | Some r => bool_decide (r ∈ rs)
                   | None => false
                   end).
Proof.
  unfold count_results. rewrite filter_cons.
  destruct (match sub_result s with Some r => bool_decide (r ∈ rs) | None => false end);
    [destruct (decide (true = true)) | destruct (decide (false = true))];
    try done; cbn [length indicator]; lia.
Qed.

Lemma count_judged_cons (s : Submission) (subs : list Submission) :
  count_judged (s :: subs)
    = count_judged subs + indicator (bool_decide (is_Some (sub_result s))).
Proof.
  unfold count_judged. rewrite filter_cons.
  destruct (decide (is_Some (sub_result s))).
  - rewrite bool_decide_eq_true_2 by done. cbn [length indicator]. lia.
  - rewrite bool_decide_eq_false_2 by done. cbn [indicator]. lia.
Qed.

Lemma sum_hits (rs : list string) (o : option string) :
  NoDup rs →
  sum_Z (map (fun status => indicator (bool_decide (Some status = o))
                            * indicator (bool_decide (is_Some (Some status)))) rs)
    = indicator (match o with Some r => bool_decide (r ∈ rs) | None => false end).
Proof.
  intros Hnd. destruct o as [r|].
  - rewrite <- (sum_indicator r rs Hnd). f_equal. apply map_ext. intros status.
    rewrite (bool_decide_eq_true_2 (is_Some (Some status))) by eauto.
    rewrite (bool_decide_ext (Some status = Some r) (status = r)).
    + unfold indicator. by destruct (bool_decide _).
    + split; [by intros [= ->] | by intros ->].
  - induction rs as [|status rs IH]; [done |].
    apply NoDup_cons in Hnd as [_ Hnd]. specialize (IH Hnd).
    unfold sum_Z in *. cbn [map foldr]. rewrite IH.
    by rewrite (bool_decide_eq_false_2 (Some status = None)).
Qed.

Lemma sum_occurrences_statuses (rs : list string) (subs : list Submission) :
  NoDup rs →
  sum_Z (map (fun status => occurrences (Some status) subs) rs) = count_results rs subs.
Proof.
  intros Hnd. induction subs as [|s subs IH].
  - cbn. induction rs as [|status rs IHrs]; [done |].
    apply NoDup_cons in Hnd as [_ Hnd]. specialize (IHrs Hnd).
    unfold sum_Z in *. cbn [map foldr]. rewrite IHrs. done.
  - rewrite count_results_cons, <- IH, <- (sum_hits rs (sub_result s) Hnd).
    rewrite <- sum_Z_plus. f_equal. apply map_ext. intros status.
    apply occurrences_cons.
Qed.

Lemma sum_occurrences_results (D : list (option string)) (subs : list Submission) :
  NoDup D → (∀ s, s ∈ subs → sub_result s ∈ D) →
  sum_Z (map (fun r => occurrences r subs) D) = count_judged subs.
Proof.
  intros Hnd. induction subs as [|s subs IH]; intros Hall.
  - cbn. clear Hnd Hall. induction D as [|r D IHD]; [done |].
    unfold sum_Z in *. cbn [map foldr]. rewrite IHD. by destruct r.
  - rewrite count_judged_cons, <- IH by (intros; apply Hall; by constructor).
    erewrite map_ext; [| intros r; apply occurrences_cons].
    rewrite sum_Z_plus. f_equal.
    assert (sub_result s ∈ D) as Hin by (apply Hall; constructor).
    destruct (sub_result s) as [x|].
    + rewrite (bool_decide_eq_true_2 (is_Some (Some x))) by eauto.
      rewrite <- (bool_decide_eq_true_2 (Some x ∈ D) Hin) at 1.
      rewrite <- (sum_indicator (Some x) D Hnd). f_equal. apply map_ext. intros r.
      destruct (decide (r = Some x)) as [-> | Hne].
      * rewrite (bool_decide_eq_true_2 (is_Some (Some x))) by eauto.
        unfold indicator. by destruct (bool_decide _).
      * by rewrite (bool_decide_eq_false_2 (r = Some x)).
    + rewrite (bool_decide_eq_false_2 (is_Some None)) by (by intros [? ?]).
      clear. induction D as [|r D IHD]; [done |].
      unfold sum_Z in *. cbn [map foldr]. rewrite IHD.
      destruct r as [x|].
      * by rewrite (bool_decide_eq_false_2 (Some x = None)).
      * rewrite (bool_decide_eq_false_2 (is_Some None)) by (by intros [? ?]).
        unfold indicator. by destruct (bool_decide _).
Qed.

Lemma RESULT_TYPES_results_NoDup :
  Forall (fun rtype => NoDup (rt_results rtype)) RESULT_TYPES.
Proof. repeat constructor; by_compute. Qed.

(** X1: the breakdown counts, for each category of the taxonomy, the
    submissions whose result belongs to the category, and its total
    counts the submissions that have a result, whether the taxonomy
    knows it or not. *)
Theorem breakdown_counts (subs : list Submission) : breakdown subs = counted subs.
Proof.
  unfold breakdown, counted. f_equal.
  - apply map_ext_in. intros rtype Hin. f_equal.
    erewrite map_ext; [| intros status; apply dict_get_occurrences].
    apply sum_occurrences_statuses.
    pose proof RESULT_TYPES_results_NoDup as Hall.
    eapply Forall_forall in Hall; [exact Hall |]. by apply list_elem_of_In.
  - assert (NoDup ((result_counts subs).*1)) as Hnd
      by (rewrite result_counts_keys; apply distinct_results_NoDup).
    rewrite (sum_Z_Permutation _ (map snd (result_counts subs))).
    + unfold result_counts. rewrite map_map. cbn [snd].
      erewrite map_ext; [apply sum_occurrences_results |].
      * apply distinct_results_NoDup.
      * intros s Hs. apply distinct_results_elem, list_elem_of_fmap. by exists s.
      * intros r. by destruct r.
    + apply (fmap_Permutation snd). by apply results_dict_items.
Qed.

Lemma taxonomy_partition (r code : string) :
  RESULT_TO_TYPE !! r = Some code →
  Forall (fun rtype => bool_decide (r ∈ rt_results rtype) = String.eqb (rt_code rtype) code)
         RESULT_TYPES.
Proof.
  unfold RESULT_TO_TYPE. cbn [foldl RESULT_TYPES rt_results rt_code].
  intros H.
  repeat (apply lookup_insert_Some in H as [[<- <-] | [_ H]];
          [repeat constructor; vm_compute; reflexivity |]).
  by rewrite lookup_empty in H.
Qed.

Lemma counted_cons_mapped (s : Submission) (subs : list Submission) (r code : string) :
  sub_result s = Some r → RESULT_TO_TYPE !! r = Some code →
  bump_data code 1 (counted subs) = counted (s :: subs).
Proof.
  intros Hs Hcode. unfold bump_data.
  rewrite bump_present.
  - unfold counted. cbn [categories total]. f_equal.
    + rewrite map_map. apply map_ext_in. intros rtype Hin.
      pose proof (taxonomy_partition r code Hcode) as Hpart.
      eapply Forall_forall in Hpart; [| by apply list_elem_of_In].
      unfold add_to_category. cbn [cat_code cat_name cat_count].
      rewrite count_results_cons, Hs, Hpart.
      destruct (String.eqb (rt_code rtype) code); [done |].
      cbn [indicator]. f_equal. lia.
    + rewrite count_judged_cons, Hs.
      by rewrite (bool_decide_eq_true_2 (is_Some (Some r))) by eauto.
  - apply materialized_codes. reflexivity.
  - eapply RESULT_TO_TYPE_code in Hcode. exact Hcode.
Qed.

Lemma counted_cons_pending (s : Submission) (subs : list Submission) :
  sub_result s = None → counted (s :: subs) = counted subs.
Proof.
  intros Hs. unfold counted. f_equal.
  - apply map_ext. intros rtype. rewrite count_results_cons, Hs.
    cbn [indicator]. f_equal. lia.
  - rewrite count_judged_cons, Hs.
    rewrite (bool_decide_eq_false_2 (is_Some None)) by (by intros [? ?]).
    cbn [indicator]. lia.
Qed.

(** X2: the incremental update agrees with a recomputation.  When the
    cache holds the breakdown of the submission table and a submission
    arrives whose result is pending or one the taxonomy maps,
    [add_to_result_data] with its result and 1 leaves in the cache the
    breakdown of the table with that submission added. *)
Theorem add_to_result_data_tracks_recompute (w : World) (s : Submission) (ttl : Z) :
  result_datas (cache w) !! Aggregator.cache_key = Some (breakdown (submissions w), ttl) →
  (∀ r, sub_result s = Some r → is_Some (RESULT_TO_TYPE !! r)) →
  ∃ ttl',
    result_datas (cache (add_to_result_data (sub_result s) 1 w)) !! Aggregator.cache_key
      = Some (breakdown (s :: submissions w), ttl').
Proof.
  intros Hget Hmapped. rewrite !breakdown_counts in *. unfold add_to_result_data.
  destruct (sub_result s) as [r|] eqn:Hs.
  - destruct (Hmapped r eq_refl) as [code Hcode]. rewrite Hcode, Hget.
    exists (GLOBAL_SUBMISSION_STAT_UPDATE_INTERVAL (settings w)).
    cbn. rewrite lookup_insert_eq.
    by rewrite (counted_cons_mapped s (submissions w) r code).
  - exists ttl. by rewrite counted_cons_pending.
Qed.

Lemma add_to_result_data_tracks_recompute_witness :
  ∃ ttl',
    result_datas (cache (add_to_result_data (sub_result a_memory_limit) 1 counted_world))
      !! Aggregator.cache_key
      = Some (breakdown (a_memory_limit :: submissions counted_world), ttl').
Proof.
  apply (add_to_result_data_tracks_recompute counted_world a_memory_limit 3600).
  - reflexivity.
  - intros r Hr. injection Hr as <-. exists "ERR". reflexivity.
Defined.

(** A result outside the taxonomy makes the two drift apart: the
    recomputed total counts it, the incremental update ignores it. *)
Example add_to_result_data_unmapped_drift :
  let s := a_submission 4 1 (a_problem 1 10 true) (Some "SC") 0 0 10 993 in
  total (breakdown (submissions counted_world)) = 2
  ∧ total (breakdown (s :: submissions counted_world)) = 3
  ∧ add_to_result_data (sub_result s) 1 counted_world = counted_world.
Proof. repeat split; vm_compute; reflexivity. Qed.

Lemma add_to_category_inverse (code : string) (delta : Z) (cats : list Category) :
  map (add_to_category code (- delta)) (map (add_to_category code delta) cats) = cats.
Proof.
  rewrite map_map. rewrite <- (map_id cats) at 2. apply map_ext. intros [c n k].
  unfold add_to_category. cbn [cat_code].
  destruct (String.eqb c code) eqn:Heq; cbn [cat_code cat_name cat_count]; rewrite ?Heq.
  - f_equal. lia.
  - done.
Qed.

Lemma add_to_category_codes (code : string) (delta : Z) (cats : list Category) :
  map cat_code (map (add_to_category code delta) cats) = map cat_code cats.
Proof.
  rewrite map_map. apply map_ext. intros c. unfold add_to_category.
  by destruct (String.eqb (cat_code c) code).
Qed.

Lemma add_to_result_data_step (w : World) (r code : string) (delta : Z)
    (d : ResultData) (ttl : Z) :
  RESULT_TO_TYPE !! r = Some code →
  result_datas (cache w) !! Aggregator.cache_key = Some (d, ttl) →
  materialized d →
  add_to_result_data (Some r) delta w
    = post {| ev_channel := "submissions"; ev_type := "change-global-stats";
              ev_result_type := code; ev_delta := delta |}
        (set_cache
           (cache_set_result_data Aggregator.cache_key
              {| categories := map (add_to_category code delta) (categories d);
                 total := total d + delta |}
              (GLOBAL_SUBMISSION_STAT_UPDATE_INTERVAL (settings w)) (cache w)) w).
Proof.
  intros Hcode Hget Hmat. unfold add_to_result_data. rewrite Hcode, Hget.
  unfold bump_data. rewrite bump_present; [done | by apply materialized_codes |].
  rewrite Hmat. by eapply RESULT_TO_TYPE_code.
Qed.

(** X3: a delta followed by the opposite delta for the same mapped result
    restores the cached breakdown (with the configured interval as TTL);
    each of the two calls posts its own event. *)
Theorem add_to_result_data_inverse (w : World) (r code : string) (delta : Z)
    (d : ResultData) (ttl : Z) :
  RESULT_TO_TYPE !! r = Some code →
  result_datas (cache w) !! Aggregator.cache_key = Some (d, ttl) →
  materialized d →
  let w' := add_to_result_data (Some r) (- delta) (add_to_result_data (Some r) delta w) in
  result_datas (cache w') !! Aggregator.cache_key
    = Some (d, GLOBAL_SUBMISSION_STAT_UPDATE_INTERVAL (settings w))
  ∧ length (events w') = S (S (length (events w))).
Proof.
  intros Hcode Hget Hmat w'. unfold w'.
  rewrite (add_to_result_data_step w r code delta d ttl) by done.
  rewrite (add_to_result_data_step _ r code (- delta)
             {| categories := map (add_to_category code delta) (categories d);
                total := total d + delta |}
             (GLOBAL_SUBMISSION_STAT_UPDATE_INTERVAL (settings w))).
  - cbn [cache set_cache post cache_set_result_data result_datas events
         categories total settings].
    rewrite lookup_insert_eq, add_to_category_inverse. split.
    + destruct d as [cats n]. cbn [categories total]. do 3 f_equal. lia.
    + rewrite !length_app. cbn [length]. lia.
  - done.
  - cbn [cache set_cache post cache_set_result_data result_datas].
    by rewrite lookup_insert_eq.
  - unfold materialized. cbn [categories]. by rewrite add_to_category_codes.
Qed.

Lemma add_to_result_data_inverse_witness :
  let w := a_world [] [] (stats_cache (a_breakdown 10 5 0 0 0)) in
  let w' := add_to_result_data (Some "IR") (- 4) (add_to_result_data (Some "IR") 4 w) in
  result_datas (cache w') !! Aggregator.cache_key = Some (a_breakdown 10 5 0 0 0, 3600)
  ∧ length (events w') = 2%nat.
Proof.
  exact (add_to_result_data_inverse
           (a_world [] [] (stats_cache (a_breakdown 10 5 0 0 0)))
           "IR" "ERR" 4 (a_breakdown 10 5 0 0 0) 3600 eq_refl eq_refl eq_refl).
Defined.

(** X4: without a cached breakdown [add_to_result_data] does nothing,
    whatever the result and the delta: it creates no entry and posts no
    event. *)
Theorem add_to_result_data_absent (w : World) (result : option string) (delta : Z) :
  result_datas (cache w) !! Aggregator.cache_key = None →
  add_to_result_data result delta w = w.
Proof.
  intros Hnone. unfold add_to_result_data.
  destruct result as [r|]; [| done].
  destruct (RESULT_TO_TYPE !! r); [| done]. by rewrite Hnone.
Qed.

Lemma add_to_result_data_absent_witness :
  add_to_result_data (Some "AC") 1 sparse_world = sparse_world.
Proof. exact (add_to_result_data_absent sparse_world (Some "AC") 1 eq_refl). Defined.

(** ** Reads through the cache *)

(** X5: once [user_completed_ids] has answered for a profile, it gives
    the same answer again and leaves the world alone, whatever has become
    of the submission table in between: the entry is served until it is
    deleted. *)
Theorem user_completed_ids_served_from_cache (profile : Z) (w : World)
    (later : list Submission) :
  let first := user_completed_ids profile w in
  user_completed_ids profile (set_submissions later first.2)
    = (first.1, set_submissions later first.2).
Proof.
  unfold user_completed_ids.
  destruct (id_sets (cache w) !! user_complete_key profile) as [[result ttl]|] eqn:Hget;
    cbn [fst snd set_submissions cache set_cache cache_set_ids id_sets].
  - by rewrite Hget.
  - by rewrite lookup_insert_eq.
Qed.

(** X6: after an authorized rescore, the next [user_completed_ids] of any
    owner of a rescored submission is computed from the rescored table
    and cached anew. *)
Theorem recalculate_score_refreshes_completed (user : User) (selected : list Z)
    (w : World) (s : Submission) :
  has_perm user "judge.rejudge_submission" = true →
  s ∈ select selected w →
  let w' := recalculate_score user selected w in
  let fresh : gset Z := list_to_set (user_completed_query (sub_user s) w') in
  (user_completed_ids (sub_user s) w').1 = fresh
  ∧ id_sets (cache (user_completed_ids (sub_user s) w').2)
      !! user_complete_key (sub_user s) = Some (fresh, 86400).
Proof.
  intros Hperm Hs w' fresh. subst fresh w'. unfold user_completed_ids.
  rewrite (recalculate_score_drops_completed user selected w s Hperm Hs).
  split; [done |]. cbn. by rewrite lookup_insert_eq.
Qed.

Lemma recalculate_score_refreshes_completed_witness :
  let s := a_submission 1 5 (a_problem 1 100 false) (Some "WA") 80 80 100 990 in
  let w' := recalculate_score rescorer [1; 2] rescore_world in
  let fresh : gset Z := list_to_set (user_completed_query (sub_user s) w') in
  (user_completed_ids (sub_user s) w').1 = fresh
  ∧ id_sets (cache (user_completed_ids (sub_user s) w').2)
      !! user_complete_key (sub_user s) = Some (fresh, 86400).
Proof.
  apply (recalculate_score_refreshes_completed rescorer [1; 2] rescore_world
           (a_submission 1 5 (a_problem 1 100 false) (Some "WA") 80 80 100 990)).
  - reflexivity.
  - apply list_elem_of_In. vm_compute. left. reflexivity.
Defined.

(** ** Attempted maps *)

Lemma Qmax_cases (x y : Q) : Qmax x y = x ∨ Qmax x y = y.
Proof. unfold Qmax, GenericMinMax.gmax. destruct (x ?= y)%Q; auto. Qed.

Lemma foldl_Qmax_bound (rest : list Q) (x : Q) :
  (x <= foldl Qmax x rest)%Q ∧ ∀ y, y ∈ rest → (y <= foldl Qmax x rest)%Q.
Proof.
  revert x. induction rest as [|z rest IH]; intros x; cbn [foldl].
  - split; [apply Qle_refl |]. intros y Hy. by apply elem_of_nil in Hy.
  - destruct (IH (Qmax x z)) as [Hhead Hrest]. split.
    + eapply Qle_trans; [apply Q.le_max_l | exact Hhead].
    + intros y Hy. apply elem_of_cons in Hy as [-> | Hy]; [| by apply Hrest].
      eapply Qle_trans; [apply Q.le_max_r | exact Hhead].
Qed.

Lemma foldl_Qmax_attained (rest : list Q) (x : Q) : foldl Qmax x rest ∈ x :: rest.
Proof.
  revert x. induction rest as [|z rest IH]; intros x; cbn [foldl]; [constructor |].
  specialize (IH (Qmax x z)). apply elem_of_cons in IH as [Heq | Hin].
  - rewrite Heq. destruct (Qmax_cases x z) as [-> | ->]; [constructor |].
    apply elem_of_cons. right. constructor.
  - do 2 (apply elem_of_cons; right). exact Hin.
Qed.

Lemma foldl_insert_lookup `{Countable K} {V : Type} (l : list (K * V)) (k : K) (v : V) :
  NoDup (l.*1) →
  foldl (fun (m : gmap K V) kv => <[kv.1 := kv.2]> m) ∅ l !! k = Some v ↔ (k, v) ∈ l.
Proof.
  induction l as [|[k' v'] l IH] using rev_ind; intros Hnd.
  - cbn. rewrite lookup_empty. split; [done |]. intros Hin. by apply elem_of_nil in Hin.
  - rewrite fmap_app in Hnd. apply NoDup_app in Hnd as (Hnd & Hfresh & _).
    rewrite foldl_snoc, lookup_insert_Some, elem_of_app, list_elem_of_singleton.
    rewrite (IH Hnd). cbn [fst snd]. split.
    + intros [[-> ->] | [_ Hin]]; [by right | by left].
    + intros [Hin | Heq]; [| injection Heq as -> ->; by left].
      right. split; [| done]. intros ->. apply (Hfresh k).
      * apply list_elem_of_fmap. by exists (k, v).
      * cbn. constructor.
Qed.

Lemma omap_keys_NoDup {V : Type} (f : Z → option (Z * V)) (l : list Z) :
  (∀ x y, f x = Some y → y.1 = x) → NoDup l → NoDup ((omap f l).*1).
Proof.
  intros Hkey. induction 1 as [|x l Hx Hl IH]; cbn [omap list_omap]; [constructor |].
  destruct (f x) as [y|] eqn:Hfx; [| exact IH].
  cbn [fmap list_fmap]. constructor; [| exact IH].
  rewrite (Hkey x y Hfx). intros Hin. apply Hx.
  apply list_elem_of_fmap in Hin as (y' & -> & Hin).
  apply list_elem_of_omap in Hin as (x' & Hx' & Hfx').
  by rewrite (Hkey x' y' Hfx').
Qed.

Lemma user_attempted_query_elem (profile : Z) (w : World) (id : Z) (a : Attempt) :
  (id, a) ∈ user_attempted_query profile w ↔
  ∃ first rest,
    attempts_on profile id w = first :: rest
    ∧ Qle_bool (problem_points (sub_problem first))
               (Qmax_list (map sub_points (first :: rest))) = false
    ∧ a = {| achieved_points := Qmax_list (map sub_points (first :: rest));
             max_points := problem_points (sub_problem first) |}.
Proof.
  unfold user_attempted_query. rewrite list_elem_of_omap. cbv zeta.
  fold (attempts_on profile id w). split.
  - intros (id' & _ & Hf). fold (attempts_on profile id' w) in Hf.
    destruct (attempts_on profile id' w) as [|first rest] eqn:Hrows; [done |].
    destruct (Qle_bool _ _) eqn:Hle; [done |].
    injection Hf as -> <-. exists first, rest. done.
  - intros (first & rest & Hrows & Hle & ->). exists id. split.
    + apply distinct_elem, list_elem_of_fmap.
      assert (first ∈ attempts_on profile id w) as Hin by (rewrite Hrows; constructor).
      unfold attempts_on in Hin. apply list_elem_of_filter in Hin as [Hid Hin].
      exists first. split; [by apply Z.eqb_eq in Hid | done].
    + fold (attempts_on profile id w). rewrite Hrows, Hle. done.
Qed.

Lemma user_attempted_query_keys (profile : Z) (w : World) :
  NoDup ((user_attempted_query profile w).*1).
Proof.
  unfold user_attempted_query. apply omap_keys_NoDup; [| apply distinct_NoDup].
  intros id [id' a] Hf. cbv zeta in Hf.
  destruct (filter _ _) as [|first rest]; [done |].
  destruct (Qle_bool _ _); [done |]. by injection Hf as <- _.
Qed.

Lemma user_attempted_ids_lookup (profile : Z) (w : World) (id : Z) (a : Attempt) :
  attempt_maps (cache w) !! user_attempted_key profile = None →
  (user_attempted_ids profile w).1 !! id = Some a ↔ (id, a) ∈ user_attempted_query profile w.
Proof.
  intros Hmiss. unfold user_attempted_ids. rewrite Hmiss. cbn [fst].
  apply foldl_insert_lookup, user_attempted_query_keys.
Qed.

(** X7: on a cache miss, an entry of the attempted map of a profile
    records the best points of the profile's submissions to that problem:
    no submission has more, one has exactly that, and it is below the
    points of the problem, which the entry records as well. *)
Theorem user_attempted_ids_best (profile : Z) (w : World) (id : Z) (a : Attempt) :
  attempt_maps (cache w) !! user_attempted_key profile = None →
  (user_attempted_ids profile w).1 !! id = Some a →
  (achieved_points a < max_points a)%Q
  ∧ (∀ s, s ∈ attempts_on profile id w → (sub_points s <= achieved_points a)%Q)
  ∧ (∃ s, s ∈ attempts_on profile id w ∧ sub_points s = achieved_points a)
  ∧ (∃ s, s ∈ attempts_on profile id w ∧ problem_points (sub_problem s) = max_points a).
Proof.
  intros Hmiss Hget. apply user_attempted_ids_lookup in Hget; [| done].
  apply user_attempted_query_elem in Hget as (first & rest & Hrows & Hle & ->).
  rewrite Hrows. cbn [achieved_points max_points Qmax_list map].
  pose proof (foldl_Qmax_bound (map sub_points rest) (sub_points first)) as [Hhead Hrest].
  pose proof (foldl_Qmax_attained (map sub_points rest) (sub_points first)) as Hbest.
  split; [| split; [| split]].
  - apply Qnot_le_lt. intros Hge. apply Qle_bool_iff in Hge.
    cbn [Qmax_list map] in Hle. congruence.
  - intros s Hs. apply elem_of_cons in Hs as [-> | Hs]; [done |].
    apply Hrest, list_elem_of_fmap. by exists s.
  - change (sub_points first :: map sub_points rest)
      with (map sub_points (first :: rest)) in Hbest.
    apply list_elem_of_fmap in Hbest as (s & Heq & Hs). by exists s.
  - exists first. split; [constructor | done].
Qed.

Lemma user_attempted_ids_best_witness :
  let a := {| achieved_points := 7; max_points := 10 |} in
  (achieved_points a < max_points a)%Q
  ∧ (∀ s, s ∈ attempts_on 1 1 attempt_world → (sub_points s <= achieved_points a)%Q)
  ∧ (∃ s, s ∈ attempts_on 1 1 attempt_world ∧ sub_points s = achieved_points a)
  ∧ (∃ s, s ∈ attempts_on 1 1 attempt_world
          ∧ problem_points (sub_problem s) = max_points a).
Proof.
  apply (user_attempted_ids_best 1 attempt_world 1
           {| achieved_points := 7; max_points := 10 |}).
  - reflexivity.
  - vm_compute. reflexivity.
Defined.

Lemma user_completed_query_elem (profile : Z) (w : World) (id : Z) :
  id ∈ user_completed_query profile w ↔
  ∃ s, s ∈ submissions w
       ∧ sub_user s = profile
       ∧ sub_result s = Some "AC"
       ∧ (sub_points s == problem_points (sub_problem s))%Q
       ∧ problem_id (sub_problem s) = id.
Proof.
  unfold user_completed_query. rewrite distinct_elem, list_elem_of_fmap. split.
  - intros (s & -> & Hs). apply list_elem_of_filter in Hs as [Hs Hin].
    apply andb_true_iff in Hs as [Hs Hpoints]. apply andb_true_iff in Hs as [Huid Hres].
    exists s. repeat split; [done | by apply Z.eqb_eq |
      by apply bool_decide_eq_true in Hres | by apply Qeq_bool_iff].
  - intros (s & Hin & Huid & Hres & Hpoints & <-). exists s. split; [done |].
    apply list_elem_of_filter. split; [| done].
    rewrite !andb_true_iff. repeat split;
      [by apply Z.eqb_eq | by apply bool_decide_eq_true | by apply Qeq_bool_iff].
Qed.

(** X8: when the rows of one problem carry the same problem, a problem in
    the freshly computed completed set of a profile has no entry in its
    freshly computed attempted map. *)
Theorem completed_not_attempted (profile : Z) (w : World) (id : Z) :
  id_sets (cache w) !! user_complete_key profile = None →
  attempt_maps (cache w) !! user_attempted_key profile = None →
  problems_consistent w →
  id ∈ (user_completed_ids profile w).1 →
  (user_attempted_ids profile w).1 !! id = None.
Proof.
  intros Hmiss1 Hmiss2 Hfk Hdone.
  unfold user_completed_ids in Hdone. rewrite Hmiss1 in Hdone. cbn [fst] in Hdone.
  apply elem_of_list_to_set, user_completed_query_elem in Hdone
    as (s & Hin & Huser & _ & Hfull & Hid).
  destruct ((user_attempted_ids profile w).1 !! id) as [a|] eqn:Hget; [| done].
  exfalso.
  apply user_attempted_ids_lookup in Hget; [| done].
  apply user_attempted_query_elem in Hget as (first & rest & Hrows & Hle & _).
  assert (s ∈ attempts_on profile id w) as Hs.
  { unfold attempts_on. rewrite !list_elem_of_filter.
    repeat split; [by apply Z.eqb_eq | by apply Z.eqb_eq | done]. }
  assert (first ∈ attempts_on profile id w) as Hfirst by (rewrite Hrows; constructor).
  unfold attempts_on in Hfirst. rewrite !list_elem_of_filter in Hfirst.
  destruct Hfirst as (Hfid & _ & Hfin). apply Z.eqb_eq in Hfid.
  rewrite (Hfk first s Hfin Hin) in Hle by congruence.
  apply not_true_iff_false in Hle. apply Hle, Qle_bool_iff.
  rewrite <- Hfull. rewrite Hrows in Hs. cbn [map Qmax_list].
  pose proof (foldl_Qmax_bound (map sub_points rest) (sub_points first)) as [Hhead Hrest].
  apply elem_of_cons in Hs as [-> | Hs]; [done |].
  apply Hrest, list_elem_of_fmap. by exists s.
Qed.

Lemma completed_not_attempted_witness :
  (user_attempted_ids 1 attempt_world).1 !! 2 = None.
Proof.
  apply (completed_not_attempted 1 attempt_world 2); [reflexivity | reflexivity | |].
  - intros s1 s2 Hs1 Hs2.
    apply list_elem_of_In in Hs1. apply list_elem_of_In in Hs2.
    cbn in Hs1, Hs2.
    repeat (destruct Hs1 as [<- | Hs1]); try (by destruct Hs1);
      repeat (destruct Hs2 as [<- | Hs2]); try (by destruct Hs2);
      cbn; intros Hid; try discriminate Hid; reflexivity.
  - by_compute.
Defined.

(** ** More on the hot-problem ranking *)

Lemma user_counts_nil (duration : Z) (w : World) :
  user_counts duration w = [] ↔ candidates duration w = [].
Proof.
  unfold user_counts. split.
  - intros Hnil.
    pose proof (sort_by_Permutation (fun a b => (b <=? a)%Z)
                  (map (fun p => count_users (windowed duration w p))
                       (candidates duration w))) as Hperm.
    rewrite Hnil in Hperm. symmetry in Hperm. apply Permutation_nil_r in Hperm.
    by destruct (candidates duration w).
  - by intros ->.
Qed.

(** X9: with no candidate problem, [hot_problems] returns the empty
    ranking and writes nothing to the cache. *)
Theorem hot_problems_no_candidates (duration : Z) (limit : nat) (w : World) :
  rankings (cache w) !! hot_problems_key duration limit = None →
  candidates duration w = [] →
  hot_problems duration limit w = ([], w).
Proof.
  intros Hmiss Hnone. unfold hot_problems. rewrite Hmiss.
  by rewrite (proj2 (user_counts_nil duration w) Hnone).
Qed.

Lemma hot_problems_no_candidates_witness :
  hot_problems 100 5 history_world = ([], history_world).
Proof. exact (hot_problems_no_candidates 100 5 history_world eq_refl eq_refl). Defined.

(** X10: a ranking computed from at least one candidate is stored for 900
    seconds under the key of the window and the limit, and later calls
    with the same window and limit return it and leave the world alone,
    whatever has become of the submissions. *)
Theorem hot_problems_served_from_cache (duration : Z) (limit : nat) (w : World)
    (later : list Submission) :
  rankings (cache w) !! hot_problems_key duration limit = None →
  candidates duration w ≠ [] →
  let first := hot_problems duration limit w in
  rankings (cache first.2) !! hot_problems_key duration limit = Some (first.1, 900)
  ∧ hot_problems duration limit (set_submissions later first.2)
      = (first.1, set_submissions later first.2).
Proof.
  intros Hmiss Hsome. unfold hot_problems. rewrite Hmiss.
  destruct (user_counts duration w) as [|k0 rest] eqn:Hqs0.
  - by apply user_counts_nil in Hqs0.
  - cbn [fst snd set_submissions cache set_cache cache_set_ranking rankings].
    by rewrite lookup_insert_eq.
Qed.

Lemma hot_problems_served_from_cache_witness :
  let first := hot_problems 100 5 tie_world in
  rankings (cache first.2) !! hot_problems_key 100 5 = Some (first.1, 900)
  ∧ hot_problems 100 5 (set_submissions [] first.2)
      = (first.1, set_submissions [] first.2).
Proof.
  apply (hot_problems_served_from_cache 100 5 tie_world []).
  - reflexivity.
  - vm_compute. discriminate.
Defined.

Lemma filter_length_le {A : Type} (f g : A → bool) (l : list A) :
  (∀ x, f x = true → g x = true) →
  (length (filter (fun x => f x = true) l) ≤ length (filter (fun x => g x = true) l))%nat.
Proof.
  intros Himp. induction l as [|x l IH]; [done |].
  rewrite !filter_cons. destruct (f x) eqn:Hf.
  - rewrite (Himp x Hf). rewrite !decide_True by done. cbn [length]. lia.
  - rewrite decide_False by done. destruct (g x).
    + rewrite decide_True by done. cbn [length]. lia.
    + by rewrite decide_False by done.
Qed.

Lemma candidates_elem (duration : Z) (w : World) (p : Problem) :
  p ∈ candidates duration w ↔
  p ∈ problems w
  ∧ is_public p = true
  ∧ is_organization_private p = false
  ∧ (3 < problem_points p)%Q ∧ (problem_points p < 25)%Q
  ∧ windowed duration w p ≠ [].
Proof.
  unfold candidates. rewrite list_elem_of_filter, !andb_true_iff, !negb_true_iff.
  rewrite bool_decide_eq_false.
  assert (∀ x y, Qle_bool x y = false ↔ (y < x)%Q) as Hlt.
  { intros x y. rewrite <- not_true_iff_false, Qle_bool_iff. split.
    - apply Qnot_le_lt.
    - intros Hyx Hxy. by apply (Qlt_not_le y x). }
  rewrite !Hlt. tauto.
Qed.

(** X11: every row of a freshly computed ranking is a problem of the
    table that is public, not private to an organization, worth more than
    3 and less than 25 points and submitted to inside the window; its
    counts are those of the submissions in the window, with at least two
    distinct users and no more accepted submissions than counted ones. *)
Theorem hot_problems_rows_eligible (duration : Z) (limit : nat) (w : World)
    (row : HotRow) :
  rankings (cache w) !! hot_problems_key duration limit = None →
  row ∈ (hot_problems duration limit w).1 →
  let p := hr_problem row in
  let subs := windowed duration w p in
  (p ∈ problems w ∧ is_public p = true ∧ is_organization_private p = false
   ∧ (3 < problem_points p)%Q ∧ (problem_points p < 25)%Q ∧ subs ≠ [])
  ∧ unique_user_count row = count_users subs
  ∧ 2 <= unique_user_count row
  ∧ 0 <= ac_volume row <= submission_volume row
  ∧ submission_volume row <= Z.of_nat (length subs).
Proof.
  intros Hmiss Hrow p subs. subst subs p.
  apply hot_problems_survivor in Hrow; [| done].
  destruct (user_counts duration w) as [|k0 rest] eqn:Hqs0.
  { unfold survivors in Hrow. rewrite Hqs0 in Hrow. by apply elem_of_nil in Hrow. }
  eapply survivors_elem in Hrow as (Hpop & p & Hp & Heq); [| done].
  subst row.
  cbn [annotate hr_problem unique_user_count submission_volume ac_volume] in *.
  split; [by apply candidates_elem |]. split; [done |]. split; [| split].
  - unfold popular in Hpop. cbn [annotate unique_user_count] in Hpop.
    apply negb_true_iff, not_true_iff_false in Hpop.
    rewrite Qle_bool_iff in Hpop. apply Qnot_le_lt in Hpop.
    assert (inject_Z 1 < inject_Z (count_users (windowed duration w p)))%Q as Hone.
    { eapply Qle_lt_trans; [| exact Hpop]. apply Q.le_max_r. }
    rewrite <- Zlt_Qlt in Hone. lia.
  - unfold count_results. split; [lia |]. apply inj_le, filter_length_le.
    intros s. destruct (sub_result s) as [r|]; [| done].
    rewrite !bool_decide_eq_true. intros Hin.
    apply list_elem_of_singleton in Hin as ->. constructor.
  - unfold count_results. apply inj_le, length_filter.
Qed.

Lemma hot_problems_rows_eligible_witness :
  let row := annotate 100 tie_world (inject_Z 2) (a_problem 2 10 true) in
  let p := hr_problem row in
  let subs := windowed 100 tie_world p in
  (p ∈ problems tie_world ∧ is_public p = true ∧ is_organization_private p = false
   ∧ (3 < problem_points p)%Q ∧ (problem_points p < 25)%Q ∧ subs ≠ [])
  ∧ unique_user_count row = count_users subs
  ∧ 2 <= unique_user_count row
  ∧ 0 <= ac_volume row <= submission_volume row
  ∧ submission_volume row <= Z.of_nat (length subs).
Proof.
  apply (hot_problems_rows_eligible 100 5 tie_world
           (annotate 100 tie_world (inject_Z 2) (a_problem 2 10 true))).
  - reflexivity.
  - apply list_elem_of_In. vm_compute. left. reflexivity.
Defined.

Lemma Qeq_bool_inject_Z (n : Z) : Qeq_bool (inject_Z n) 0 = (n =? 0)%Z.
Proof.
  destruct (Z.eqb_spec n 0) as [-> | Hne]; [done |].
  apply not_true_iff_false. intros Heq. apply Qeq_bool_iff in Heq.
  apply Hne. apply (inject_Z_injective n 0). exact Heq.
Qed.

(** X12: in a freshly computed ranking the ordering score of a row is
    NULL exactly when none of the problem's submissions in the window has
    one of the counted results. *)
Theorem hot_problems_null_score (duration : Z) (limit : nat) (w : World) (row : HotRow) :
  rankings (cache w) !! hot_problems_key duration limit = None →
  row ∈ (hot_problems duration limit w).1 →
  hr_ordering row = None ↔ submission_volume row = 0.
Proof.
  intros Hmiss Hrow. apply hot_problems_survivor in Hrow; [| done].
  destruct (user_counts duration w) as [|k0 rest] eqn:Hqs0.
  { unfold survivors in Hrow. rewrite Hqs0 in Hrow. by apply elem_of_nil in Hrow. }
  eapply survivors_elem in Hrow as (_ & p & _ & Heq); [| done].
  subst row.
  destruct (user_counts_head duration w k0 rest Hqs0) as [Hpos _].
  cbn [annotate hr_ordering submission_volume]. unfold ordering, of_int.
  cbn [sql_mul sql_div sql_add sql_pow_e].
  rewrite !Qeq_bool_inject_Z.
  destruct (Z.eqb_spec k0 0) as [-> | _]; [lia |].
  destruct (Z.eqb_spec (count_results ["AC"; "WA"; "IR"; "RTE"; "TLE"; "OLE"]
                          (windowed duration w p)) 0) as [Hzero | Hnz];
    cbn [sql_mul sql_div sql_add sql_pow_e]; split; congruence.
Qed.

Lemma hot_problems_null_score_witness :
  let row := annotate 100 compile_error_world (inject_Z 2) (a_problem 1 10 true) in
  hr_ordering row = None ↔ submission_volume row = 0.
Proof.
  apply (hot_problems_null_score 100 5 compile_error_world
           (annotate 100 compile_error_world (inject_Z 2) (a_problem 1 10 true))).
  - reflexivity.
  - apply list_elem_of_In. vm_compute. left. reflexivity.
Defined.

Lemma sublist_map {A B : Type} (f : A → B) (l1 l2 : list A) :
  l1 `sublist_of` l2 → map f l1 `sublist_of` map f l2.
Proof. induction 1; cbn [map]; by constructor. Qed.

(** X13: when the ids of the problem table are distinct, a freshly
    computed ranking shows no problem twice. *)
Theorem hot_problems_no_duplicates (duration : Z) (limit : nat) (w : World) :
  rankings (cache w) !! hot_problems_key duration limit = None →
  NoDup (map problem_id (problems w)) →
  NoDup (map (fun row => problem_id (hr_problem row)) (hot_problems duration limit w).1).
Proof.
  intros Hmiss Hnd. rewrite hot_problems_miss by done.
  eapply sublist_NoDup; [| apply sublist_map, sublist_take].
  rewrite sort_by_Permutation. unfold survivors.
  destruct (user_counts duration w) as [|k0 rest]; [constructor |].
  eapply sublist_NoDup; [| apply sublist_map, sublist_filter].
  rewrite map_map. cbn [annotate hr_problem].
  eapply sublist_NoDup; [exact Hnd |]. apply sublist_map, sublist_filter.
Qed.

Lemma hot_problems_no_duplicates_witness :
  NoDup (map (fun row => problem_id (hr_problem row)) (hot_problems 100 5 tie_world).1).
Proof.
  apply (hot_problems_no_duplicates 100 5 tie_world); [reflexivity | by_compute].
Defined.

(** ** More on rejudging *)

Lemma judge_fold (l : list Submission) (n : Z) (w : World) :
  let r := foldl judge_one (n, w) l in
  judged r.2 = (judged w ++ map sub_id l)%list
  ∧ submissions r.2 = submissions w
  ∧ cache r.2 = cache w
  ∧ events r.2 = events w
  ∧ messages r.2 = messages w
  ∧ recalculated r.2 = recalculated w
  ∧ n <= r.1 <= n + Z.of_nat (length l).
Proof.
  revert n w. induction l as [|s l IH]; intros n w; cbv zeta; cbn [foldl map length].
  - cbn [fst snd]. rewrite app_nil_r. repeat split; lia.
  - destruct (judge_one (n, w) s) as [n1 w1] eqn:Hstep.
    unfold judge_one in Hstep. injection Hstep as Hn1 Hw1.
    destruct (IH n1 w1) as (Hj & Hs & Hc & He & Hm & Hr & Hn).
    rewrite Hj, Hs, Hc, He, Hm, Hr. subst w1 n1.
    cbn [log_judged judged submissions cache events messages recalculated] in *.
    rewrite <- app_assoc. repeat split; try done;
      destruct (judge_accepts _ _); lia.
Qed.

Lemma StronglySorted_sublist {A : Type} (R : A → A → Prop) (l1 l2 : list A) :
  l1 `sublist_of` l2 → StronglySorted R l2 → StronglySorted R l1.
Proof.
  induction 1 as [|x l1 l2 Hsub IH|x l1 l2 Hsub IH]; intros Hsorted.
  - constructor.
  - apply StronglySorted_inv in Hsorted as [Hl2 Hx]. constructor; [by apply IH |].
    apply Forall_forall. intros y Hy. eapply Forall_forall in Hx; [exact Hx |].
    by eapply elem_of_sublist.
  - apply StronglySorted_inv in Hsorted as [Hl2 _]. by apply IH.
Qed.

Lemma StronglySorted_map {A B : Type} (f : A → B) (R1 : A → A → Prop)
    (R2 : B → B → Prop) (l : list A) :
  (∀ x y, R1 x y → R2 (f x) (f y)) →
  StronglySorted R1 l → StronglySorted R2 (map f l).
Proof.
  intros Hmono. induction 1 as [|x l Hl IH Hx]; cbn [map]; constructor; [done |].
  apply Forall_forall. intros y Hy. apply list_elem_of_fmap in Hy as (z & -> & Hz).
  apply Hmono. eapply Forall_forall in Hx; [exact Hx | exact Hz].
Qed.

(** X15: a caller who passes the gates gets the selected submissions
    scheduled in ascending order of their ids: all of them with
    [judge.edit_all_problem], otherwise exactly those whose problem the
    caller authors. *)
Theorem judge_schedules_in_order (user : User) (selected : list Z) (w : World) :
  has_perm user "judge.rejudge_submission" = true →
  has_perm user "judge.edit_own_problem" = true →
  (Z.of_nat (length (select selected w)) <= 10
   ∨ has_perm user "judge.rejudge_submission_lot" = true) →
  ∃ ids,
    judged (judge user selected w) = (judged w ++ ids)%list
    ∧ StronglySorted Z.le ids
    ∧ ∀ id, id ∈ ids ↔
        ∃ s, s ∈ select selected w ∧ sub_id s = id
             ∧ (has_perm user "judge.edit_all_problem" = true
                ∨ authored_by (user_profile user) s = true).
Proof.
  intros Hrejudge Hown Hgate. unfold judge. rewrite Hrejudge, Hown. cbn [negb orb].
  set (sorted := sort_by (fun a b => (sub_id a <=? sub_id b)%Z) (select selected w)).
  assert (sorted ≡ₚ select selected w) as Hperm by apply sort_by_Permutation.
  assert (StronglySorted (fun a b => (sub_id a <=? sub_id b)%Z = true) sorted) as Hsorted.
  { apply sort_by_sorted.
    - intros x y. rewrite !Z.leb_le. lia.
    - intros x y z. rewrite !Z.leb_le. lia. }
  assert ((10 <? Z.of_nat (length sorted))%Z
          && negb (has_perm user "judge.rejudge_submission_lot") = false) as ->.
  { rewrite (Permutation_length Hperm).
    destruct Hgate as [Hfew | ->]; [| by rewrite andb_false_r].
    apply andb_false_iff. left. apply Z.ltb_ge. lia. }
  match goal with |- context [foldl judge_one (0, w) ?l] =>
    set (queryset := l);
    pose proof (judge_fold queryset 0 w) as (Hj & _);
    destruct (foldl judge_one (0, w) queryset) as [n w2]
  end.
  cbn [fst snd message_user judged] in *.
  exists (map sub_id queryset). split; [done |].
  assert (queryset `sublist_of` sorted) as Hsub.
  { unfold queryset. destruct (negb _); [apply sublist_filter | done]. }
  split.
  - apply (StronglySorted_map sub_id (fun a b => (sub_id a <=? sub_id b)%Z = true)).
    + intros x y. apply Z.leb_le.
    + by eapply StronglySorted_sublist.
  - intros id. rewrite list_elem_of_fmap. unfold queryset.
    destruct (has_perm user "judge.edit_all_problem"); cbn [negb].
    + split.
      * intros (s & -> & Hs). exists s. rewrite <- Hperm. auto.
      * intros (s & Hs & <- & _). exists s. by rewrite Hperm.
    + split.
      * intros (s & -> & Hs). apply list_elem_of_filter in Hs as [Hauth Hs].
        exists s. rewrite <- Hperm. auto.
      * intros (s & Hs & <- & [Hall | Hauth]); [done |]. exists s.
        split; [done |]. apply list_elem_of_filter. by rewrite Hperm.
Qed.

Lemma judge_schedules_in_order_witness :
  ∃ ids,
    judged (judge rejudger [2; 1] rescore_world) = (judged rescore_world ++ ids)%list
    ∧ StronglySorted Z.le ids
    ∧ ∀ id, id ∈ ids ↔
        ∃ s, s ∈ select [2; 1] rescore_world ∧ sub_id s = id
             ∧ (has_perm rejudger "judge.edit_all_problem" = true
                ∨ authored_by (user_profile rejudger) s = true).
Proof.
  apply (judge_schedules_in_order rejudger [2; 1] rescore_world).
  - reflexivity.
  - reflexivity.
  - left. vm_compute. discriminate.
Defined.

Example judge_ascending :
  judged (judge rejudger [2; 1] rescore_world) = [1; 2]
  ∧ messages (judge rejudger [2; 1] rescore_world)
      = [(INFO, "2 submissions were successfully scheduled for rejudging.")].
Proof. split; vm_compute; reflexivity. Qed.

(** ** More on rescoring *)

Lemma NoDup_map_inj {A B : Type} (f : A → B) (l : list A) (x y : A) :
  NoDup (map f l) → x ∈ l → y ∈ l → f x = f y → x = y.
Proof.
  induction l as [|z l IH]; cbn [map]; intros Hnd Hx Hy Heq.
  - by apply elem_of_nil in Hx.
  - apply NoDup_cons in Hnd as [Hz Hnd].
    apply elem_of_cons in Hx as [-> | Hx]; apply elem_of_cons in Hy as [-> | Hy].
    + done.
    + exfalso. apply Hz. rewrite Heq. apply list_elem_of_fmap. by exists y.
    + exfalso. apply Hz. rewrite <- Heq. apply list_elem_of_fmap. by exists x.
    + by apply IH.
Qed.

Lemma rescored_row_id (selected : list Z) (row : Submission) :
  sub_id (rescored_row selected row) = sub_id row.
Proof. unfold rescored_row. by destruct (bool_decide _). Qed.

Lemma rescore_fold_store (l : list Submission) (w : World) :
  NoDup (map sub_id (submissions w)) →
  NoDup (map sub_id l) →
  (∀ s, s ∈ l → s ∈ submissions w) →
  submissions (foldl rescore_one w l)
    = map (rescored_row (map sub_id l)) (submissions w).
Proof.
  intros Hstore. induction l as [|s0 l IH] using rev_ind; intros Hnd Hin.
  - cbn [foldl map]. rewrite <- (map_id (submissions w)) at 1.
    apply map_ext. intros row. unfold rescored_row.
    rewrite bool_decide_eq_false_2; [done |]. apply not_elem_of_nil.
  - rewrite map_app in Hnd. apply NoDup_app in Hnd as (Hnd & Hfresh & _).
    rewrite foldl_snoc. unfold rescore_one at 1, save.
    cbn [submissions set_submissions].
    rewrite IH; [| done | intros s Hs; apply Hin, elem_of_app; by left].
    rewrite map_map. apply map_ext_in. intros row Hrow. apply list_elem_of_In in Hrow.
    assert (s0 ∈ submissions w) as Hs0
      by (apply Hin, elem_of_app; right; constructor).
    unfold write_row. rewrite rescored_row_id. cbn [sub_id].
    destruct (Z.eqb_spec (sub_id row) (sub_id s0)) as [Heq | Hne].
    + assert (row = s0) as -> by by apply (NoDup_map_inj sub_id (submissions w)).
      unfold rescored_row.
      rewrite (bool_decide_eq_false_2 (sub_id s0 ∈ map sub_id l)).
      * rewrite bool_decide_eq_true_2; [done |].
        rewrite map_app. apply elem_of_app. right. constructor.
      * intros Hmem. apply (Hfresh (sub_id s0)); [done | constructor].
    + unfold rescored_row. rewrite map_app.
      rewrite (bool_decide_ext (sub_id row ∈ (map sub_id l ++ map sub_id [s0])%list)
                 (sub_id row ∈ map sub_id l)); [done |].
      rewrite elem_of_app. cbn [map]. rewrite list_elem_of_singleton. tauto.
Qed.

Lemma recalculate_score_store (user : User) (selected : list Z) (w : World) :
  has_perm user "judge.rejudge_submission" = true →
  NoDup (map sub_id (submissions w)) →
  submissions (recalculate_score user selected w)
    = map (rescored_row selected) (submissions w).
Proof.
  intros Hperm Hnd. rewrite recalculate_score_rows by done.
  rewrite rescore_fold_store; [| done | by apply select_ids_NoDup |].
  - apply map_ext_in. intros row Hrow. apply list_elem_of_In in Hrow.
    unfold rescored_row.
    rewrite (bool_decide_ext (sub_id row ∈ map sub_id (select selected w))
               (sub_id row ∈ selected)); [done |].
    unfold select. rewrite list_elem_of_fmap. split.
    + intros (s & -> & Hs). by apply list_elem_of_filter in Hs as [Hs _].
    + intros Hsel. exists row. split; [done |]. by apply list_elem_of_filter.
  - intros s Hs. unfold select in Hs. by apply list_elem_of_filter in Hs as [_ Hs].
Qed.

(** X16: with distinct primary keys, an authorized rescore rewrites the
    points of the selected rows, each from its own case points and
    problem, and leaves every other row and every other column as it
    was. *)
Theorem recalculate_score_changes_points_only (user : User) (selected : list Z)
    (w : World) :
  has_perm user "judge.rejudge_submission" = true →
  NoDup (map sub_id (submissions w)) →
  submissions (recalculate_score user selected w)
    = map (rescored_row selected) (submissions w).
Proof. apply recalculate_score_store. Qed.

Lemma recalculate_score_changes_points_only_witness :
  submissions (recalculate_score rescorer [1] rescore_world)
    = map (rescored_row [1]) (submissions rescore_world).
Proof.
  apply (recalculate_score_changes_points_only rescorer [1] rescore_world).
  - reflexivity.
  - by_compute.
Defined.

Lemma rescored_row_twice (selected : list Z) (row : Submission) :
  rescored_row selected (rescored_row selected row) = rescored_row selected row.
Proof.
  unfold rescored_row. destruct (bool_decide (sub_id row ∈ selected)) eqn:Hsel;
    cbn [sub_id]; rewrite Hsel; reflexivity.
Qed.

(** X17: rescoring is idempotent on the submission table: a second
    rescore of the same selection changes no row. *)
Theorem recalculate_score_idempotent (user : User) (selected : list Z) (w : World) :
  has_perm user "judge.rejudge_submission" = true →
  NoDup (map sub_id (submissions w)) →
  submissions (recalculate_score user selected (recalculate_score user selected w))
    = submissions (recalculate_score user selected w).
Proof.
  intros Hperm Hnd.
  rewrite (recalculate_score_store user selected (recalculate_score user selected w));
    [| done |].
  - rewrite recalculate_score_store by done. rewrite map_map.
    apply map_ext. intros row. apply rescored_row_twice.
  - rewrite recalculate_score_store by done. rewrite map_map.
    erewrite map_ext; [exact Hnd |]. intros row. apply rescored_row_id.
Qed.

Lemma recalculate_score_idempotent_witness :
  submissions (recalculate_score rescorer [1; 2]
                 (recalculate_score rescorer [1; 2] rescore_world))
    = submissions (recalculate_score rescorer [1; 2] rescore_world).
Proof.
  apply (recalculate_score_idempotent rescorer [1; 2] rescore_world).
  - reflexivity.
  - by_compute.
Defined.

Lemma refresh_fold_frame (owners : list Z) (w : World) :
  recalculated (foldl refresh_profile w owners) = (recalculated w ++ owners)%list
  ∧ events (foldl refresh_profile w owners) = events w
  ∧ judged (foldl refresh_profile w owners) = judged w
  ∧ messages (foldl refresh_profile w owners) = messages w
  ∧ ∀ key, (∀ p, p ∈ owners → key ≠ user_complete_key p) →
      id_sets (cache (foldl refresh_profile w owners)) !! key = id_sets (cache w) !! key
      ∧ attempt_maps (cache (foldl refresh_profile w owners)) !! key
          = attempt_maps (cache w) !! key
      ∧ result_datas (cache (foldl refresh_profile w owners)) !! key
          = result_datas (cache w) !! key
      ∧ rankings (cache (foldl refresh_profile w owners)) !! key
          = rankings (cache w) !! key.
Proof.
  induction owners as [|p owners IH] using rev_ind.
  - cbn [foldl]. rewrite app_nil_r. repeat split; done.
  - rewrite foldl_snoc. destruct IH as (Hr & He & Hj & Hm & Hc).
    cbn [refresh_profile calculate_points set_cache cache_delete recalculated events
         judged messages cache id_sets attempt_maps result_datas rankings].
    rewrite Hr, He, Hj, Hm, <- app_assoc. repeat split; try done;
      (rewrite lookup_delete_ne;
       [apply Hc; intros q Hq; apply H, elem_of_app; by left
       | intros Heq; apply (H p); [apply elem_of_app; right; constructor | done]]).
Qed.

(** X18: an authorized rescore calls [calculate_points] once for each
    profile that owns a submission of the selection, and for no other
    profile. *)
Theorem recalculate_score_recalculates_owners (user : User) (selected : list Z)
    (w : World) :
  has_perm user "judge.rejudge_submission" = true →
  ∃ owners,
    recalculated (recalculate_score user selected w) = (recalculated w ++ owners)%list
    ∧ NoDup owners
    ∧ ∀ p, p ∈ owners ↔ ∃ s, s ∈ select selected w ∧ sub_user s = p.
Proof.
  intros Hperm. exists (distinct (map sub_user (select selected w))).
  split; [| split; [apply distinct_NoDup |]].
  - unfold recalculate_score. rewrite Hperm. cbn [negb]. cbv zeta.
    cbn [message_user recalculated].
    rewrite (select_users selected w) by apply rescore_fold_keys.
    destruct (refresh_fold_frame (distinct (map sub_user (select selected w)))
                (foldl rescore_one w (select selected w))) as (Hr & _).
    destruct (rescore_fold_frame (select selected w) w) as (_ & _ & _ & _ & Hr0).
    by rewrite Hr, Hr0.
  - intros p. rewrite distinct_elem, list_elem_of_fmap. split.
    + intros (s & -> & Hs). by exists s.
    + intros (s & Hs & <-). by exists s.
Qed.

Lemma recalculate_score_recalculates_owners_witness :
  ∃ owners,
    recalculated (recalculate_score rescorer [1; 2] rescore_world)
      = (recalculated rescore_world ++ owners)%list
    ∧ NoDup owners
    ∧ ∀ p, p ∈ owners ↔ ∃ s, s ∈ select [1; 2] rescore_world ∧ sub_user s = p.
Proof.
  exact (recalculate_score_recalculates_owners rescorer [1; 2] rescore_world eq_refl).
Defined.

(** ** The single-submission view and the change permission *)

Lemma filter_key_unique {A : Type} (f : A → Z) (k : Z) (l : list A) :
  NoDup (map f l) →
  filter (fun x => f x = k) l = [] ∨ ∃ x, filter (fun x => f x = k) l = [x].
Proof.
  induction l as [|y l IH]; cbn [map]; intros Hnd; [by left |].
  apply NoDup_cons in Hnd as [Hy Hnd]. rewrite filter_cons.
  destruct (decide (f y = k)) as [Heq | Hne]; [| by apply IH].
  right. exists y. f_equal.
  destruct (filter (fun x => f x = k) l) as [|z rest] eqn:Hrest; [done |].
  exfalso. apply Hy.
  assert (z ∈ filter (fun x => f x = k) l) as Hz by (rewrite Hrest; constructor).
  apply list_elem_of_filter in Hz as [Hfz Hz].
  rewrite Heq, <- Hfz. apply list_elem_of_fmap. by exists z.
Qed.

(** X19: on a table with distinct primary keys, the single-submission
    view schedules exactly what the bulk action schedules for that one
    id: where the view raises (no permission, no such submission, a
    problem of somebody else), the action schedules nothing. *)
Theorem judge_view_agrees_with_judge (user : User) (id : Z) (w : World) :
  NoDup (map sub_id (submissions w)) →
  judged (judge user [id] w)
    = match judge_view user id w with
      | inr w1 => judged w1
      | inl _ => judged w
      end.
Proof.
  intros Hnd. unfold judge, judge_view.
  destruct (_ || _); [done |].
  assert (select [id] w = filter (fun s => sub_id s = id) (submissions w)) as ->.
  { unfold select. apply list_filter_iff. intros s.
    rewrite list_elem_of_singleton. done. }
  destruct (filter_key_unique sub_id id (submissions w) Hnd) as [-> | [s ->]].
  - unfold sort_by. cbn [foldr length Z.of_nat Z.ltb Z.compare andb].
    destruct (negb (has_perm user "judge.edit_all_problem"));
      rewrite ?filter_nil; reflexivity.
  - unfold sort_by. cbn [foldr insert_by length].
    change (10 <? Z.of_nat 1)%Z with false. cbn [andb].
    destruct (has_perm user "judge.edit_all_problem"); cbn [negb andb].
    + reflexivity.
    + rewrite filter_cons, filter_nil.
      destruct (authored_by (user_profile user) s) eqn:Hauth; cbn [negb].
      * rewrite decide_True by done. reflexivity.
      * rewrite decide_False by done. reflexivity.
Qed.

Lemma judge_view_agrees_with_judge_witness :
  judged (judge rejudger [2] rescore_world)
    = match judge_view rejudger 2 rescore_world with
      | inr w1 => judged w1
      | inl _ => judged rescore_world
      end.
Proof.
  apply (judge_view_agrees_with_judge rejudger 2 rescore_world). by_compute.
Defined.

(** X20: what [get_queryset] lists for a user who holds
    [judge.edit_own_problem] is all open to change by
    [has_change_permission]; without that permission nothing is. *)
Theorem change_permission_covers_queryset (user : User) (w : World) (s : Submission) :
  s ∈ get_queryset user w →
  has_change_permission user (Some s) = has_perm user "judge.edit_own_problem".
Proof.
  unfold get_queryset, has_change_permission. intros Hs.
  destruct (has_perm user "judge.edit_own_problem"); cbn [negb]; [| done].
  destruct (has_perm user "judge.edit_all_problem"); [done |].
  by apply list_elem_of_filter in Hs as [Hauth _].
Qed.

Lemma change_permission_covers_queryset_witness :
  let s := a_submission 1 5 (a_problem 1 100 false) (Some "WA") 80 80 100 990 in
  has_change_permission rejudger (Some s) = has_perm rejudger "judge.edit_own_problem".
Proof.
  apply (change_permission_covers_queryset rejudger rescore_world).
  apply list_elem_of_In. vm_compute. left. reflexivity.
Defined.

(** X21: [rate_view] never reaches the organizer test whose evaluation
    would raise [AttributeError]: its first gate already requires
    [judge.edit_all_contest].  It hands a contest to the rating exactly
    when the caller holds both contest permissions and the contest with
    that id exists and is rated. *)
Theorem rate_view_outcomes (user : User) (id : Z) (contests : list Contest) :
  rate_view user id contests ≠ inl AttributeError
  ∧ ((∃ c, rate_view user id contests = inr c)
     ↔ has_perm user "judge.edit_all_contest" = true
       ∧ has_perm user "judge.edit_own_contest" = true
       ∧ ∃ contest rest,
           filter (fun c => contest_id c = id) contests = contest :: rest
           ∧ contest_is_rated contest = true).
Proof.
  unfold rate_view.
  destruct (has_perm user "judge.edit_all_contest"),
           (has_perm user "judge.edit_own_contest"); cbn [negb orb];
    try (split; [discriminate | split; [intros [c Hc]; discriminate
                                       | intros (? & ? & _); discriminate]]).
  destruct (filter (fun c => contest_id c = id) contests) as [|contest rest].
  - split; [discriminate |]. split; [intros [c Hc]; discriminate |].
    intros (_ & _ & c & r & Hnil & _). discriminate.
  - destruct (contest_is_rated contest) eqn:Hrated; cbn [negb].
    + split; [discriminate |]. split; [| eauto].
      intros _. repeat split. eauto.
    + split; [discriminate |]. split; [intros [c Hc]; discriminate |].
      intros (_ & _ & c & r & Hcons & Hr). injection Hcons as -> _. congruence.
Qed.

Lemma rate_view_outcomes_example :
  rate_view {| user_profile := 1;
               user_perms := ["judge.edit_all_contest"; "judge.edit_own_contest"] |}
            3 [ {| contest_id := 3; contest_is_rated := true; contest_organizers := [] |} ]
    = inr 3
  ∧ rate_view {| user_profile := 1; user_perms := ["judge.edit_own_contest"] |}
              3 [ {| contest_id := 3; contest_is_rated := true;
                     contest_organizers := [1] |} ]
      = inl PermissionDenied.
Proof. split; reflexivity. Qed.

(** ** Publication and the ranking *)

(** X22: a ranking computed after [make_private] shows none of the
    problems that were made private (a ranking cached before still
    does, until it expires). *)
Theorem make_private_unranks (selected : list Z) (duration : Z) (limit : nat)
    (w : World) (row : HotRow) :
  rankings (cache w) !! hot_problems_key duration limit = None →
  row ∈ (hot_problems duration limit (make_private selected w)).1 →
  problem_id (hr_problem row) ∉ selected.
Proof.
  intros Hmiss Hrow.
  assert (rankings (cache (make_private selected w)) !! hot_problems_key duration limit
          = None) as Hmiss' by exact Hmiss.
  apply hot_problems_survivor in Hrow; [| done].
  destruct (user_counts duration (make_private selected w)) as [|k0 rest] eqn:Hqs0.
  { unfold survivors in Hrow. rewrite Hqs0 in Hrow. by apply elem_of_nil in Hrow. }
  eapply survivors_elem in Hrow as (_ & p & Hp & Heq); [| done]. subst row.
  cbn [annotate hr_problem].
  apply candidates_elem in Hp as (Hin & Hpublic & _).
  change (problems (make_private selected w))
    with (map (fun p => if bool_decide (problem_id p ∈ selected)
                        then with_is_public false p else p) (problems w)) in Hin.
  apply list_elem_of_fmap in Hin as (q & -> & _).
  destruct (decide (problem_id q ∈ selected)) as [Hsel | Hsel].
  - rewrite bool_decide_eq_true_2 in Hpublic by done. discriminate Hpublic.
  - by rewrite bool_decide_eq_false_2.
Qed.

Lemma make_private_unranks_witness :
  let row := annotate 100 (make_private [2] tie_world) (inject_Z 2) (a_problem 1 10 true) in
  problem_id (hr_problem row) ∉ [2].
Proof.
  apply (make_private_unranks [2] 100 5 tie_world
           (annotate 100 (make_private [2] tie_world) (inject_Z 2) (a_problem 1 10 true))).
  - reflexivity.
  - apply list_elem_of_In. vm_compute. left. reflexivity.
Defined.

(** ** Authored and editable problems *)

Section CuratorFacts.
Variable curators : Problem → list Z.

Lemma outer_join_some (related : list Z) (x : Z) :
  Some x ∈ outer_join related ↔ x ∈ related.
Proof.
  unfold outer_join. destruct related as [|y related].
  - split; intros Hin; [| by apply elem_of_nil in Hin].
    apply list_elem_of_singleton in Hin. discriminate.
  - rewrite list_elem_of_fmap. split.
    + by intros (z & [= ->] & Hz).
    + intros Hx. by exists x.
Qed.

Lemma outer_join_inhabited (related : list Z) : ∃ a, a ∈ outer_join related.
Proof.
  destruct related as [|y related]; [exists None | exists (Some y)]; cbn; constructor.
Qed.

Lemma editable_problems_elem (user : User) (profile : option Z) (w : World)
    (p : Problem) :
  has_perm user "judge.edit_all_problem" = false →
  let prof := default (user_profile user) profile in
  p ∈ editable_problems curators user profile w ↔
  p ∈ problems w
  ∧ (prof ∈ problem_authors p ∨ prof ∈ curators p
     ∨ (has_perm user "judge.edit_public_problem" = true ∧ is_public p = true)).
Proof.
  intros Hall prof. unfold editable_problems. rewrite Hall. cbn [negb]. fold prof.
  rewrite list_elem_of_bind. split.
  - intros (q & Hq & Hin). apply list_elem_of_bind in Hq as (a & Hq & Ha).
    apply list_elem_of_bind in Hq as (c & Hq & Hc).
    destruct (_ || _) eqn:Hcond; [| by apply elem_of_nil in Hq].
    apply list_elem_of_singleton in Hq as ->. split; [done |].
    apply orb_true_iff in Hcond as [Hcond | Hcond].
    + apply orb_true_iff in Hcond as [Hcond | Hcond];
        apply bool_decide_eq_true in Hcond; subst.
      * left. by apply outer_join_some.
      * right. left. by apply outer_join_some.
    + right. right. by apply andb_true_iff.
  - intros (Hin & Hwhy). exists p. split; [| done].
    destruct (outer_join_inhabited (problem_authors p)) as [a0 Ha0].
    destruct (outer_join_inhabited (curators p)) as [c0 Hc0].
    destruct Hwhy as [Hauth | [Hcur | [Hperm Hpub]]].
    + apply list_elem_of_bind. exists (Some prof). split; [| by apply outer_join_some].
      apply list_elem_of_bind. exists c0. split; [| done].
      rewrite bool_decide_eq_true_2 by done. cbn [orb]. constructor.
    + apply list_elem_of_bind. exists a0. split; [| done].
      apply list_elem_of_bind. exists (Some prof). split; [| by apply outer_join_some].
      rewrite (bool_decide_eq_true_2 (Some prof = Some prof)) by done.
      rewrite orb_true_r. cbn [orb]. constructor.
    + apply list_elem_of_bind. exists a0. split; [| done].
      apply list_elem_of_bind. exists c0. split; [| done].
      rewrite Hperm, Hpub. cbn [andb]. rewrite orb_true_r. constructor.
Qed.

(** X23: for a user without [judge.edit_all_problem], the problems
    [editable_problems] yields are those of the table that the profile
    authors or curates, together with the public ones when the user
    holds [judge.edit_public_problem]. *)
Theorem editable_problems_membership (user : User) (profile : option Z) (w : World)
    (p : Problem) :
  has_perm user "judge.edit_all_problem" = false →
  let prof := default (user_profile user) profile in
  p ∈ editable_problems curators user profile w ↔
  p ∈ problems w
  ∧ (prof ∈ problem_authors p ∨ prof ∈ curators p
     ∨ (has_perm user "judge.edit_public_problem" = true ∧ is_public p = true)).
Proof. apply editable_problems_elem. Qed.

(** X24: the ids [user_editable_ids] gives a profile are the ids of the
    problems [editable_problems] yields for that profile to a user with
    neither of the two wider permissions, and they include the ids
    [user_authored_ids] gives. *)
Theorem user_editable_ids_agree (user : User) (profile : Z) (w : World) :
  has_perm user "judge.edit_all_problem" = false →
  has_perm user "judge.edit_public_problem" = false →
  list_to_set (map problem_id (editable_problems curators user (Some profile) w))
    = user_editable_ids curators profile w
  ∧ user_authored_ids profile w ⊆ user_editable_ids curators profile w.
Proof.
  intros Hall Hpub. split.
  - apply set_eq. intros id. unfold user_editable_ids.
    rewrite !elem_of_list_to_set, !list_elem_of_fmap. split.
    + intros (p & -> & Hp). exists p. split; [done |].
      apply (editable_problems_elem user (Some profile) w p Hall) in Hp
        as (Hin & Hwhy). cbn [default] in Hwhy.
      apply list_elem_of_filter. split; [| done].
      destruct Hwhy as [? | [? | [Hperm _]]]; [by left | by right | congruence].
    + intros (p & -> & Hp). exists p. split; [done |].
      apply list_elem_of_filter in Hp as [Hwhy Hin].
      apply (editable_problems_elem user (Some profile) w p Hall).
      split; [done |]. cbn [default]. tauto.
  - intros id. unfold user_authored_ids, user_editable_ids.
    rewrite !elem_of_list_to_set, !list_elem_of_fmap.
    intros (p & -> & Hp). exists p. split; [done |].
    apply list_elem_of_filter in Hp as [Hauth Hin].
    apply list_elem_of_filter. split; [by left | done].
Qed.

End CuratorFacts.

Lemma editable_problems_membership_witness :
  let user := {| user_profile := 7; user_perms := ["judge.edit_public_problem"] |} in
  let p := a_problem 1 10 true in
  p ∈ editable_problems (fun _ => [9]) user None tie_world ↔
  p ∈ problems tie_world
  ∧ (7 ∈ problem_authors p ∨ 7 ∈ [9]
     ∨ (has_perm user "judge.edit_public_problem" = true ∧ is_public p = true)).
Proof.
  exact (editable_problems_membership (fun _ => [9])
           {| user_profile := 7; user_perms := ["judge.edit_public_problem"] |}
           None tie_world (a_problem 1 10 true) eq_refl).
Defined.

Lemma user_editable_ids_agree_witness :
  list_to_set (map problem_id (editable_problems (fun _ => [9]) rescorer (Some 9) tie_world))
    = user_editable_ids (fun _ => [9]) 9 tie_world
  ∧ user_authored_ids 9 tie_world ⊆ user_editable_ids (fun _ => [9]) 9 tie_world.
Proof.
  exact (user_editable_ids_agree (fun _ => [9]) rescorer 9 tie_world eq_refl eq_refl).
Defined.
